(** * Placeholder asset generators: sprite atlases and the isometric mock-up

    A shallow embedding of two scripts of the repository:

    - [scripts/generate_placeholder_sprites.py]: the creature and terrain
      atlases and the particle sprites, drawn with integer pixel arithmetic
      on PIL images, and the run of the script as the sequence of
      directories made, files saved and lines printed (module [Sprites]);
    - [docs/implementation/cartoon_isometric_mockup.py]: the isometric scene,
      drawn with binary64 arithmetic on a matplotlib axes, and the order in
      which the axes paints its artists when the figure is saved (module
      [Mockup]).

    Python [int]s are [Z]; Python [float]s are the kernel's binary64 numbers;
    tuples of colour components are lists of [Z]; a script that mutates a
    drawing surface is a function on the state of that surface. The global
    generator of numpy is a sequence of outcomes, any sequence; of PIL and
    matplotlib only what the scripts hand to them is kept: the draw calls
    with their coordinates and colours, the artists with their geometry. *)

From Stdlib Require Import ZArith List Ascii String Bool Lia.
From Stdlib Require Import Sorted Permutation.
From Stdlib Require Import Floats Uint63.
Import ListNotations.

Set Warnings "-inexact-float".

Local Open Scope string_scope.
Local Open Scope list_scope.
Local Open Scope Z_scope.

(** ** Python helpers shared by both scripts *)

(** [range(n)]. *)
Definition range (n : nat) : list Z :=
  map Z.of_nat (seq 0 n).

(** [range(start, stop, step)] for a positive [step]. *)
Definition range3 (start stop step : Z) : list Z :=
  map (fun k => start + step * Z.of_nat k)
      (seq 0 (Z.to_nat ((stop - start + step - 1) / step))).

(** [enumerate(l)]. *)
Definition enumerate {A : Type} (l : list A) : list (Z * A) :=
  combine (range (List.length l)) l.

(** A [for] loop whose body updates a state. *)
Definition for_each {A S : Type} (l : list A) (body : A -> S -> S) (s : S) : S :=
  fold_left (fun s a => body a s) l s.

(** * The sprite atlases *)

Module Sprites.

(** A colour is the tuple of components handed to PIL. *)
Definition color := list Z.

(** The calls made on [ImageDraw.Draw(atlas)]. *)
Inductive shape : Type :=
| ellipse (xy : Z * Z * Z * Z) (fill : color) (outline : option color)
| polygon (xy : list (Z * Z)) (fill : color) (outline : option color).

(** [Image.new('RGBA', size, background)] and what has been drawn on it
    since, oldest first. *)
Record image : Type := Image {
  size : Z * Z;
  background : color;
  drawn : list shape
}.

Definition Image_new (sz : Z * Z) (bg : color) : image :=
  {| size := sz; background := bg; drawn := [] |}.

Definition draw (s : shape) (im : image) : image :=
  {| size := size im; background := background im; drawn := drawn im ++ [s] |}.

Definition black : color := [0; 0; 0; 255].

(** *** [create_creature_atlas] *)

Definition animations : list (string * color) :=
  [ ("Idle",   [255; 200; 200]);
    ("Walk",   [200; 255; 200]);
    ("Run",    [200; 200; 255]);
    ("Eat",    [255; 255; 200]);
    ("Sleep",  [200; 200; 200]);
    ("Talk",   [255; 200; 255]);
    ("Attack", [255; 100; 100]);
    ("Death",  [100; 100; 100]) ].

(** [x_offset] and [y_offset] of the frame [frame] of the animation in row
    [anim_idx]. *)
Definition creature_offsets (anim_idx frame : Z) : Z * Z :=
  let y_offset := anim_idx * 48 in
  let x_offset := frame * 48 in
  (x_offset, y_offset).

(** The body of the inner loop: one frame of one animation. *)
Definition creature_frame (anim_idx : Z) (anim_name : string) (c : color)
    (frame : Z) (atlas : image) : image :=
  let '(x_offset, y_offset) := creature_offsets anim_idx frame in
  let bbox := (x_offset + 8, y_offset + 8, x_offset + 40, y_offset + 40) in
  let atlas := draw (ellipse bbox c (Some black)) atlas in
  let eye_y := y_offset + 18 in
  let atlas := draw (ellipse (x_offset + 14, eye_y, x_offset + 18, eye_y + 4)
                             black None) atlas in
  let atlas := draw (ellipse (x_offset + 30, eye_y, x_offset + 34, eye_y + 4)
                             black None) atlas in
  if String.eqb anim_name "Walk" && (frame mod 2 =? 0)
  then draw (ellipse (x_offset + 20, y_offset + 35, x_offset + 28, y_offset + 43)
                     c (Some black)) atlas
  else atlas.

Definition create_creature_atlas : image :=
  let atlas := Image_new (384, 384) [0; 0; 0; 0] in
  for_each (enumerate animations)
    (fun '(anim_idx, (anim_name, c)) atlas =>
       for_each (range 8)
         (fun frame atlas => creature_frame anim_idx anim_name c frame atlas)
         atlas)
    atlas.

(** *** [create_terrain_atlas] *)

Definition biomes : list (string * color) :=
  [ ("Forest",    [34; 139; 34]);
    ("Desert",    [237; 201; 175]);
    ("Grassland", [124; 252; 0]);
    ("Tundra",    [230; 230; 250]);
    ("Ocean",     [0; 119; 190]) ].

Definition terrain_offsets (biome_idx variant : Z) : Z * Z :=
  let x_offset := biome_idx * 64 in
  let y_offset := variant * 32 in
  (x_offset, y_offset).

(** [tuple(min(255, max(0, c + (variant - 2) * 10)) for c in color)]. *)
Definition variant_color (c : color) (variant : Z) : color :=
  map (fun c => Z.min 255 (Z.max 0 (c + (variant - 2) * 10))) c.

Definition terrain_variant (biome_idx : Z) (biome_name : string) (c : color)
    (variant : Z) (atlas : image) : image :=
  let '(x_offset, y_offset) := terrain_offsets biome_idx variant in
  let points :=
    [ (x_offset + 32, y_offset + 0);
      (x_offset + 63, y_offset + 16);
      (x_offset + 32, y_offset + 31);
      (x_offset + 0,  y_offset + 16) ] in
  let atlas := draw (polygon points (variant_color c variant ++ [255]) (Some black)) atlas in
  if String.eqb biome_name "Forest"
  then draw (ellipse (x_offset + 28, y_offset + 12, x_offset + 36, y_offset + 20)
                     [0; 100; 0; 255] None) atlas
  else atlas.

Definition create_terrain_atlas : image :=
  let atlas := Image_new (320, 128) [0; 0; 0; 0] in
  for_each (enumerate biomes)
    (fun '(biome_idx, (biome_name, c)) atlas =>
       for_each (range 4)
         (fun variant atlas => terrain_variant biome_idx biome_name c variant atlas)
         atlas)
    atlas.

(** *** The grid of cells *)

(** A pixel rectangle [(x0, y0, x1, y1)]: the pixels [(x, y)] with
    [x0 <= x < x1] and [y0 <= y < y1]. *)
Definition rect : Type := (Z * Z * Z * Z)%type.

(** The cell that starts at the offsets of a loop iteration. *)
Definition cell_rect (cellWidth cellHeight : Z) (offsets : Z * Z) : rect :=
  let '(x_offset, y_offset) := offsets in
  (x_offset, y_offset, x_offset + cellWidth, y_offset + cellHeight).

(** 48x48 sprites. *)
Definition creature_rect (anim_idx frame : Z) : rect :=
  cell_rect 48 48 (creature_offsets anim_idx frame).

(** 64x32 isometric tiles. *)
Definition terrain_rect (biome_idx variant : Z) : rect :=
  cell_rect 64 32 (terrain_offsets biome_idx variant).

(** The rect and the canvas size in the words of the specification:
    variants along x, category rows along y. *)
Definition spec_rect (cellWidth cellHeight rowIndex variantIndex : Z) : rect :=
  (variantIndex * cellWidth, rowIndex * cellHeight,
   variantIndex * cellWidth + cellWidth, rowIndex * cellHeight + cellHeight).

Definition spec_canvas_size (variantsPerCategory categories cellWidth cellHeight : Z)
  : Z * Z :=
  (variantsPerCategory * cellWidth, categories * cellHeight).

(** The row of a category, by its name. *)
Definition row_index (name : string) (categories : list (string * color))
  : option Z :=
  option_map fst
    (find (fun '(_, (n, _)) => String.eqb n name) (enumerate categories)).

Definition in_rect (r : rect) (p : Z * Z) : Prop :=
  let '(x0, y0, x1, y1) := r in
  x0 <= fst p < x1 /\ y0 <= snd p < y1.

Definition in_canvas (sz : Z * Z) (p : Z * Z) : Prop :=
  0 <= fst p < fst sz /\ 0 <= snd p < snd sz.

(** The corners of a bounding box, the vertices of a polygon. *)
Definition points_of (s : shape) : list (Z * Z) :=
  match s with
  | ellipse (x0, y0, x1, y1) _ _ => [ (x0, y0); (x1, y1) ]
  | polygon xy _ _ => xy
  end.

Definition within (r : rect) (s : shape) : Prop :=
  Forall (in_rect r) (points_of s).


Definition is_byte (c : Z) : Prop := 0 <= c <= 255.

(** Every shape of an image lies in a cell [cell i j] of the grid of the
    indices [0 <= i < n] and [0 <= j < m]. *)
Definition drawn_in_grid (cell : Z -> Z -> rect) (n m : Z) (im : image) : Prop :=
  Forall (fun s => exists i j, 0 <= i < n /\ 0 <= j < m /\ within (cell i j) s)
         (drawn im).

(** *** [create_particle_sprites] *)

(** A call on [ImageDraw.Draw(img)]: one of the shapes above, or a line. *)
Inductive mark : Type :=
| filled (s : shape)
| line (xy : Z * Z * Z * Z) (fill : color) (width : Z).

Record picture : Type := Picture {
  picture_size : Z * Z;
  picture_background : color;
  marks : list mark
}.

Definition put (m : mark) (img : picture) : picture :=
  {| picture_size := picture_size img;
     picture_background := picture_background img;
     marks := marks img ++ [m] |}.

Definition picture_of (im : image) : picture :=
  {| picture_size := size im;
     picture_background := background im;
     marks := map filled (drawn im) |}.

Definition particles : list (string * color * string) :=
  [ ("heart", [255; 100; 100], "â™¥");
    ("zzz", [100; 100; 255], "Z");
    ("sparkle", [255; 255; 100], "âœ¦");
    ("sweat", [100; 200; 255], "ðŸ’§");
    ("exclamation", [255; 200; 0], "!");
    ("question", [100; 100; 255], "?") ].

(** The body of the loop, up to [img.save]. *)
Definition particle_sprite (name : string) (c : color) (symbol : string)
  : picture :=
  let img := {| picture_size := (24, 24); picture_background := [0; 0; 0; 0];
                marks := [] |} in
  if String.eqb name "heart" then
    let img := put (filled (ellipse (4, 6, 12, 14) c None)) img in
    let img := put (filled (ellipse (12, 6, 20, 14) c None)) img in
    put (filled (polygon [ (12, 18); (4, 10); (20, 10) ] c None)) img
  else if String.eqb name "sparkle" then
    let img := put (line (12, 2, 12, 22) c 3) img in
    let img := put (line (2, 12, 22, 12) c 3) img in
    let img := put (line (5, 5, 19, 19) c 2) img in
    put (line (19, 5, 5, 19) c 2) img
  else
    put (filled (ellipse (2, 2, 22, 22) c None)) img.

(** What a run does to the outside: directories made, files saved, lines
    printed, in this order. *)
Inductive event : Type :=
| makedirs (path : string)
| save (path : string) (img : picture)
| print (s : string).

Definition create_particle_sprites : list event :=
  map (fun '(name, c, symbol) =>
         save ("assets/sprites/particles/" ++ name ++ ".png")
              (particle_sprite name c symbol))
      particles
  ++ [ print "Created particle sprites" ].

Definition save_creature_atlas : list event :=
  [ save "assets/sprites/creatures/creature_atlas.png"
         (picture_of create_creature_atlas);
    print "Created creature atlas" ].

Definition save_terrain_atlas : list event :=
  [ save "assets/sprites/terrain/terrain_atlas.png"
         (picture_of create_terrain_atlas);
    print "Created terrain atlas" ].

Definition newline : string := String (ascii_of_nat 10) EmptyString.

Definition main : list event :=
  [ makedirs "assets/sprites/creatures";
    makedirs "assets/sprites/terrain";
    makedirs "assets/sprites/particles" ]
  ++ save_creature_atlas
  ++ save_terrain_atlas
  ++ create_particle_sprites
  ++ [ print (newline ++ "Placeholder sprites created successfully!");
       print "These are simple colored shapes for testing.";
       print "Replace with actual artwork for production." ].

(** [os.path.dirname]. *)
Fixpoint after_last_slash (l : list ascii) : list ascii :=
  match l with
  | [] => []
  | c :: l' => if Ascii.eqb c "/"%char then l' else after_last_slash l'
  end.

Definition dirname (path : string) : string :=
  string_of_list_ascii (rev (after_last_slash (rev (list_ascii_of_string path)))).

Definition saved (evs : list event) : list (string * picture) :=
  flat_map (fun e => match e with save p img => [ (p, img) ] | _ => [] end) evs.

(** Every file is saved into a directory made earlier in the run. *)
Fixpoint saves_into_made (made : list string) (evs : list event) : bool :=
  match evs with
  | [] => true
  | makedirs d :: evs' => saves_into_made (d :: made) evs'
  | save p _ :: evs' =>
      existsb (String.eqb (dirname p)) made && saves_into_made made evs'
  | print _ :: evs' => saves_into_made made evs'
  end.


(** *** Looking into a finished image *)

Definition in_rectb (r : rect) (p : Z * Z) : bool :=
  let '(x0, y0, x1, y1) := r in
  (x0 <=? fst p) && (fst p <? x1) && (y0 <=? snd p) && (snd p <? y1).

Definition withinb (r : rect) (s : shape) : bool :=
  forallb (in_rectb r) (points_of s).

(** The shapes of an image that lie in a rect, oldest first. *)
Definition shapes_in (r : rect) (im : image) : list shape :=
  filter (withinb r) (drawn im).

Definition color_eqb (a b : color) : bool :=
  (List.length a =? List.length b)%nat
  && forallb (fun ab => fst ab =? snd ab) (combine a b).

Definition points_eqb (a b : list (Z * Z)) : bool :=
  (List.length a =? List.length b)%nat
  && forallb (fun ab => (fst (fst ab) =? fst (snd ab))
                        && (snd (fst ab) =? snd (snd ab))) (combine a b).

Definition outline_eqb (a b : option color) : bool :=
  match a, b with
  | Some a, Some b => color_eqb a b
  | None, None => true
  | _, _ => false
  end.

Definition shape_eqb (s t : shape) : bool :=
  match s, t with
  | ellipse (x0, y0, x1, y1) f o, ellipse (x0', y0', x1', y1') f' o' =>
      (x0 =? x0') && (y0 =? y0') && (x1 =? x1') && (y1 =? y1')
      && color_eqb f f' && outline_eqb o o'
  | polygon xy f o, polygon xy' f' o' =>
      points_eqb xy xy' && color_eqb f f' && outline_eqb o o'
  | _, _ => false
  end.

Fixpoint shapes_eqb (l l' : list shape) : bool :=
  match l, l' with
  | [], [] => true
  | s :: l, s' :: l' => shape_eqb s s' && shapes_eqb l l'
  | _, _ => false
  end.

(** The cell of a finished atlas holds what one run of the loop body for
    this cell draws on a blank image. *)
Definition creature_cell_ok (anim_idx frame : Z) : bool :=
  match nth_error animations (Z.to_nat anim_idx) with
  | Some (anim_name, c) =>
      shapes_eqb
        (shapes_in (creature_rect anim_idx frame) create_creature_atlas)
        (drawn (creature_frame anim_idx anim_name c frame
                  (Image_new (384, 384) [0; 0; 0; 0])))
  | None => false
  end.

Definition terrain_cell_ok (biome_idx variant : Z) : bool :=
  match nth_error biomes (Z.to_nat biome_idx) with
  | Some (biome_name, c) =>
      shapes_eqb
        (shapes_in (terrain_rect biome_idx variant) create_terrain_atlas)
        (drawn (terrain_variant biome_idx biome_name c variant
                  (Image_new (320, 128) [0; 0; 0; 0])))
  | None => false
  end.

End Sprites.

(** * The isometric mock-up *)

Module Mockup.

Local Open Scope float_scope.

(** An [int] used where Python needs a [float]: the conversion is exact below
    2^53 in absolute value, which covers every integer of the script. *)
Definition float_of_int (n : Z) : float :=
  if (n <? 0)%Z then - PrimFloat.of_uint63 (Uint63.of_Z (- n))
  else PrimFloat.of_uint63 (Uint63.of_Z n).

(** Function to convert world to isometric coordinates. *)
Definition world_to_iso (x y : float) : float * float :=
  let iso_x := (x - y) * 0.5 in
  let iso_y := (x + y) * 0.25 in
  (iso_x + 800, iso_y + 200).

(** ** The drawing surface *)

Definition point := (float * float)%type.

(** The matplotlib artists the script creates, with their geometry, their
    text and their face colour. Keyword arguments that only style an artist
    ([edgecolor], [linewidth], [alpha], [fontsize], [boxstyle], ...) are left
    out. *)
Inductive artist : Type :=
| AxesImage
| Polygon (xy : list point) (facecolor : string)
| Circle (center : point) (radius : float) (facecolor : string)
| Ellipse (center : point) (width height : float) (facecolor : string)
| Arc (center : point) (width height theta1 theta2 : float) (color : string)
| FancyBboxPatch (xy : point) (width height : float) (facecolor : string)
| Rectangle (xy : point) (width height : float) (facecolor : string)
| Line2D (xdata ydata : list float) (color : string)
| Text (x y : float) (s : string).

Definition with_facecolor (c : string) (a : artist) : artist :=
  match a with
  | Polygon xy _ => Polygon xy c
  | Circle p r _ => Circle p r c
  | Ellipse p w h _ => Ellipse p w h c
  | FancyBboxPatch p w h _ => FancyBboxPatch p w h c
  | Rectangle p w h _ => Rectangle p w h c
  | AxesImage | Arc _ _ _ _ _ _ | Line2D _ _ _ | Text _ _ _ => a
  end.

(** The process-wide generator behind [np.random]: the raw outcomes it will
    produce, and how many have been consumed. Any sequence of outcomes is a
    possible generator. *)
Record rng_state : Type := Rng {
  outcomes : nat -> Z;
  consumed : nat
}.

(** [np.radians], [np.cos] and [np.sin], as the numpy in use computes them. *)
Record numpy : Type := Numpy {
  radians : float -> float;
  cos : float -> float;
  sin : float -> float
}.

(** What the drawing code works on: the axes [ax], as the list of its
    artists in the order they were added, the generator, and the numpy
    module. A variable that holds an artist is its index in [ax]. *)
Record world : Type := World {
  ax : list artist;
  np_random : rng_state;
  np : numpy
}.

Definition set_ax (artists : list artist) (w : world) : world :=
  {| ax := artists; np_random := np_random w; np := np w |}.

Definition set_np_random (g : rng_state) (w : world) : world :=
  {| ax := ax w; np_random := g; np := np w |}.

(** Code that reads and updates the globals. *)
Definition M (A : Type) : Type := world -> A * world.

Definition ret {A : Type} (a : A) : M A := fun w => (a, w).

Definition bind {A B : Type} (m : M A) (k : A -> M B) : M B :=
  fun w => let (a, w') := m w in k a w'.

Notation "x <- m ;; k" := (bind m (fun x => k))
  (at level 61, m at next level, right associativity).
Notation "m ;; k" := (bind m (fun _ => k))
  (at level 61, right associativity).

(** [for a in l: body(a)]. *)
Fixpoint forM {A : Type} (l : list A) (body : A -> M unit) : M unit :=
  match l with
  | [] => ret tt
  | a :: l' => body a ;; forM l' body
  end.

(** [ax.add_patch], [ax.add_line], [ax.text], [ax.plot], [ax.imshow]: the
    artist goes to the end of [ax]; the result is the new artist. *)
Definition add_artist (a : artist) : M nat :=
  fun w => (List.length (ax w), set_ax (ax w ++ [a]) w).

Fixpoint update {A : Type} (i : nat) (f : A -> A) (l : list A) : list A :=
  match l, i with
  | [], _ => []
  | a :: l', O => f a :: l'
  | a :: l', S i' => a :: update i' f l'
  end.

(** [patch.set_facecolor(c)] on an artist that is already in [ax]. *)
Definition set_facecolor (patch : nat) (c : string) : M unit :=
  fun w => (tt, set_ax (update patch (with_facecolor c) (ax w)) w).

Definition next_outcome : M Z :=
  fun w => let g := np_random w in
           (outcomes g (consumed g),
            set_np_random {| outcomes := outcomes g; consumed := S (consumed g) |} w).

(** [np.random.randint(low, high)]: an integer of [low..high-1]. *)
Definition randint (low high : Z) : M Z :=
  r <- next_outcome ;; ret (low + r mod (high - low))%Z.

(** [np.random.random()]: 53 random bits scaled into [0, 1). *)
Definition random : M float :=
  r <- next_outcome ;; ret (float_of_int (r mod 2 ^ 53) * 0x1p-53).

(** ** The shape generators *)

(** Draw isometric terrain tiles. *)
Definition draw_iso_tile (x y : float) (color : string) (biome_type : string)
  : M unit :=
  let '(ix, iy) := world_to_iso x y in
  add_artist (Polygon [ (ix, iy); (ix + 32, iy + 16); (ix, iy + 32);
                        (ix - 32, iy + 16) ] color) ;;
  if String.eqb biome_type "grass" then
    forM (range 3) (fun _ =>
      offset_x <- randint (-10) 10 ;;
      offset_y <- randint (-5) 5 ;;
      add_artist (Line2D [ ix + float_of_int offset_x; ix + float_of_int offset_x ]
                         [ iy + float_of_int offset_y + 16;
                           iy + float_of_int offset_y + 20 ] "#2d5016") ;;
      ret tt)
  else if String.eqb biome_type "desert" then
    forM (range 5) (fun _ =>
      dx <- randint (-15) 15 ;;
      dy <- randint (-5) 5 ;;
      add_artist (Circle (ix + float_of_int dx, iy + float_of_int dy + 16) 1
                         "#d4a574") ;;
      ret tt)
  else ret tt.

(** Draw trees in forest. *)
Definition draw_tree (x y : float) : M unit :=
  let '(ix, iy) := world_to_iso x y in
  add_artist (FancyBboxPatch (ix - 8, iy) 16 40 "#654321") ;;
  forM (enumerate [ (40, 40); (35, 55); (25, 65) ]) (fun '(_, (size, offset_y)) =>
    add_artist (Circle (ix, iy + offset_y) size "#2d5016") ;;
    ret tt).

(** Draw cartoon creatures. *)
Definition draw_creature (x y : float) (species emotion : string)
    (action : option string) : M (float * float) :=
  let '(ix, iy) := world_to_iso x y in
  let is_action (a : string) : bool :=
    match action with Some a' => String.eqb a' a | None => false end in
  add_artist (Ellipse (ix, iy - 5) 40 20 "black") ;;
  let '(body_color, size) :=
    if String.eqb species "herbivore" then ("#7cb342", 30)
    else if String.eqb species "carnivore" then ("#e74c3c", 35)
    else ("#8b6914", 32) in
  add_artist (Circle (ix, iy + 20) size body_color) ;;
  add_artist (Circle (ix, iy + 50) (size * 0.8) body_color) ;;
  let eye_size := size * 0.32 in
  left_eye <- add_artist (Circle (ix - 10, iy + 52) eye_size "white") ;;
  right_eye <- add_artist (Circle (ix + 10, iy + 52) eye_size "white") ;;
  pupil_y <-
    (if String.eqb emotion "happy" then
       add_artist (Circle (ix - 10, iy + 55) 2 "white") ;;
       add_artist (Circle (ix + 10, iy + 55) 2 "white") ;;
       ret (iy + 52)
     else if String.eqb emotion "scared" then ret (iy + 50)
     else if String.eqb emotion "sad" then ret (iy + 49)
     else ret (iy + 52)) ;;
  add_artist (Circle (ix - 10, pupil_y) (eye_size * 0.5) "black") ;;
  add_artist (Circle (ix + 10, pupil_y) (eye_size * 0.5) "black") ;;
  (if String.eqb emotion "happy" then
     add_artist (Arc (ix, iy + 45) 20 15 200 340 "#2a2a2a") ;;
     add_artist (Circle (ix - 20, iy + 45) 5 "#ff6b6b") ;;
     add_artist (Circle (ix + 20, iy + 45) 5 "#ff6b6b") ;;
     ret tt
   else if String.eqb emotion "sad" then
     add_artist (Arc (ix, iy + 40) 20 15 20 160 "#2a2a2a") ;;
     add_artist (Ellipse (ix - 15, iy + 45) 3 6 "#4fc3f7") ;;
     ret tt
   else if String.eqb emotion "angry" then
     add_artist (Line2D [ix - 15; ix - 5] [iy + 60; iy + 58] "#2a2a2a") ;;
     add_artist (Line2D [ix + 5; ix + 15] [iy + 58; iy + 60] "#2a2a2a") ;;
     ret tt
   else ret tt) ;;
  (if is_action "eating" then
     add_artist (Circle (ix, iy + 40) 5 "#e74c3c") ;;
     ret tt
   else if is_action "sleeping" then
     set_facecolor left_eye body_color ;;
     set_facecolor right_eye body_color ;;
     add_artist (Text (ix + 30) (iy + 70) "Z") ;;
     add_artist (Text (ix + 40) (iy + 80) "z") ;;
     add_artist (Text (ix + 48) (iy + 88) "z") ;;
     ret tt
   else if is_action "talking" then
     add_artist (FancyBboxPatch (ix + 40, iy + 60) 80 40 "white") ;;
     add_artist (Polygon [ (ix + 40, iy + 65); (ix + 30, iy + 55);
                           (ix + 45, iy + 60) ] "white") ;;
     add_artist (Text (ix + 65) (iy + 75) "❤️") ;;
     add_artist (Text (ix + 85) (iy + 75) "😊") ;;
     ret tt
   else ret tt) ;;
  r <- random ;;
  (if PrimFloat.ltb 0.5 r then
     forM (range 3) (fun _ =>
       dx <- randint (-15) 15 ;;
       dy <- randint 10 30 ;;
       let spot_x := ix + float_of_int dx in
       let spot_y := iy + float_of_int dy in
       add_artist (Circle (spot_x, spot_y) 3 "#2a2a2a") ;;
       ret tt)
   else ret tt) ;;
  ret (ix, iy).

(** Draw resources. *)
Definition draw_resource (x y : float) (resource_type : string) : M unit :=
  let '(ix, iy) := world_to_iso x y in
  if String.eqb resource_type "berries" then
    add_artist (Circle (ix, iy + 10) 15 "#2d5016") ;;
    forM (range 5) (fun _ =>
      dx <- randint (-10) 10 ;;
      dy <- randint 5 15 ;;
      let berry_x := ix + float_of_int dx in
      let berry_y := iy + float_of_int dy in
      add_artist (Circle (berry_x, berry_y) 3 "#e74c3c") ;;
      ret tt)
  else if String.eqb resource_type "water" then
    add_artist (Ellipse (ix, iy) 40 20 "#4fc3f7") ;;
    add_artist (Ellipse (ix, iy) 50 25 "none") ;;
    ret tt
  else if String.eqb resource_type "cactus" then
    add_artist (FancyBboxPatch (ix - 10, iy) 20 40 "#2d5016") ;;
    forM (range 8) (fun i =>
      let spine_y := iy + float_of_int (i * 5) in
      add_artist (Line2D [ix - 12; ix - 15] [spine_y; spine_y] "k") ;;
      add_artist (Line2D [ix + 12; ix + 15] [spine_y; spine_y] "k") ;;
      ret tt)
  else ret tt.

(** ** The scene *)

(** The parts of the script, after its own headings. *)
Inductive layer : Type :=
| Background | Terrain | Trees | Creatures | Resources | Weather
| UIElements | ParticleEffects | DayNight | UIPanel | Title | MiniMap.

(** One statement executed at the top level of the script: the part it
    belongs to, the world point it is placed at (when it is placed through
    [world_to_iso]), and what it does. *)
Record stmt : Type := Stmt {
  layer_of : layer;
  placed_at : option (Z * Z);
  run : M unit
}.

Definition add (a : artist) : M unit := add_artist a ;; ret tt.

Definition tree_positions : list (Z * Z) :=
  [ (200, 200); (350, 150); (450, 300); (250, 400) ]%Z.

Definition creatures : list (Z * Z * string * string * option string) :=
  [ (300, 350, "herbivore", "happy", Some "eating");
    (400, 400, "herbivore", "happy", Some "talking");
    (500, 250, "carnivore", "angry", None);
    (150, 450, "omnivore", "sad", None);
    (350, 500, "herbivore", "happy", Some "sleeping");
    (900, 300, "herbivore", "scared", None);
    (1000, 350, "carnivore", "happy", None) ]%Z.

Definition tiles (xs ys : list Z) (shade : Z -> Z -> string) (biome : string)
  : list stmt :=
  flat_map (fun x =>
    map (fun y =>
      Stmt Terrain (Some (x, y))
           (draw_iso_tile (float_of_int x) (float_of_int y) (shade x y) biome))
      ys) xs.

(** [np.radians(angle)], [np.cos(rad)], [np.sin(rad)]. *)
Definition np_call (f : numpy -> float -> float) (x : float) : M float :=
  fun w => (f (np w) x, w).

(** Background gradient (sky). *)
Definition background_stmts : list stmt :=
  [ Stmt Background None (add AxesImage) ].

(** Draw biomes: forest (left side), desert (right side), transition zone. *)
Definition terrain_stmts : list stmt :=
  tiles (range3 100 600 64) (range3 100 600 64)
    (fun x y => if ((x + y) mod 128 =? 0)%Z then "#3a7d44" else "#4a8b54")
    "grass"
  ++ tiles (range3 700 1200 64) (range3 100 600 64)
       (fun x y => if ((x + y) mod 128 =? 0)%Z then "#f4d03f" else "#fad643")
       "desert"
  ++ tiles (range3 600 700 64) (range3 100 600 64) (fun _ _ => "#8b9556") "grass".

(** Add some trees. *)
Definition tree_stmts : list stmt :=
  map (fun pos =>
    Stmt Trees (Some pos)
         (draw_tree (float_of_int (fst pos)) (float_of_int (snd pos))))
    tree_positions.

(** Place creatures. *)
Definition creature_stmts : list stmt :=
  map (fun '(x, y, species, emotion, action) =>
    Stmt Creatures (Some (x, y))
         (draw_creature (float_of_int x) (float_of_int y) species emotion action ;;
          ret tt))
    creatures.

(** Place resources. *)
Definition resource_stmts : list stmt :=
  [ Stmt Resources (Some (250, 300)%Z)
         (draw_resource (float_of_int 250) (float_of_int 300) "berries");
    Stmt Resources (Some (400, 200)%Z)
         (draw_resource (float_of_int 400) (float_of_int 200) "water");
    Stmt Resources (Some (950, 400)%Z)
         (draw_resource (float_of_int 950) (float_of_int 400) "cactus") ].

(** Weather effect (light rain in forest). *)
Definition weather_stmts : list stmt :=
  map (fun _ =>
    Stmt Weather None
         (rain_x <- randint 100 600 ;;
          rain_y <- randint 600 900 ;;
          add (Line2D [ float_of_int rain_x; float_of_int (rain_x - 5) ]
                      [ float_of_int rain_y; float_of_int (rain_y - 20) ]
                      "#4fc3f7")))
    (range 20).

(** UI Elements: health bar above a creature, need icons. *)
Definition ui_stmts : list stmt :=
  let '(creature_x, creature_y) :=
    world_to_iso (float_of_int 400) (float_of_int 400) in
  [ Stmt UIElements (Some (400, 400)%Z)
         (add (FancyBboxPatch (creature_x - 20, creature_y + 80) 40 6 "#e74c3c"));
    Stmt UIElements (Some (400, 400)%Z)
         (add (FancyBboxPatch (creature_x - 20, creature_y + 80) 30 6 "#4caf50"));
    Stmt UIElements (Some (400, 400)%Z)
         (add (Circle (creature_x - 30, creature_y + 70) 8 "#ff9800"));
    Stmt UIElements (Some (400, 400)%Z)
         (add (Text (creature_x - 30) (creature_y + 70) "🍖")) ].

(** Particle effects: hearts for bonding creatures. *)
Definition particle_stmts : list stmt :=
  let '(heart_x, heart_y) :=
    world_to_iso (float_of_int 400) (float_of_int 400) in
  map (fun i =>
    let offset := float_of_int (i * 10) in
    Stmt ParticleEffects (Some (400, 400)%Z)
         (add (Text (heart_x + 10) (heart_y + 90 + offset) "❤️")))
    (range 3).

(** Day/night indicator (sun) and sun rays. *)
Definition daynight_stmts : list stmt :=
  [ Stmt DayNight None (add (Circle (1400, 850) 50 "#ffd54f")) ]
  ++ map (fun angle =>
       Stmt DayNight None
            (rad <- np_call radians (float_of_int angle) ;;
             cos_rad <- np_call cos rad ;;
             sin_rad <- np_call sin rad ;;
             let '(x1, y1) := (1400 + 60 * cos_rad, 850 + 60 * sin_rad) in
             let '(x2, y2) := (1400 + 80 * cos_rad, 850 + 80 * sin_rad) in
             add (Line2D [x1; x2] [y1; y2] "#ffa000")))
       (range3 0 360 45).

(** UI Panel (bottom right) and panel content. *)
Definition panel_stmts : list stmt :=
  [ Stmt UIPanel None (add (FancyBboxPatch (1200, 50) 350 200 "white"));
    Stmt UIPanel None (add (Text 1220 220 "Selected: Happy Herbivore"));
    Stmt UIPanel None (add (Text 1220 190 "Age: 12 days"));
    Stmt UIPanel None (add (Text 1220 170 "Health: 75%"));
    Stmt UIPanel None (add (Text 1220 150 "Hunger: 30%"));
    Stmt UIPanel None (add (Text 1220 130 "Thirst: 45%"));
    Stmt UIPanel None (add (Text 1220 110 "Energy: 80%"));
    Stmt UIPanel None (add (Text 1220 90 "Genetics: Fast, Social"));
    Stmt UIPanel None (add (Text 1220 70 "Current: Socializing")) ].

Definition title_stmts : list stmt :=
  [ Stmt Title None
         (add (Text 800 950 "Creature Evolution Sim - Cartoon Isometric View")) ].

(** Mini-map (top right), mini biomes, player view indicator. *)
Definition minimap_stmts : list stmt :=
  [ Stmt MiniMap None (add (FancyBboxPatch (1400, 700) 150 100 "#f5f5f5"));
    Stmt MiniMap None (add (Rectangle (1410, 750) 60 40 "#4a8b54"));
    Stmt MiniMap None (add (Rectangle (1480, 750) 60 40 "#fad643"));
    Stmt MiniMap None (add (Rectangle (1450, 760) 50 20 "none")) ].

(** The script, top to bottom. *)
Definition script : list stmt :=
  background_stmts ++ terrain_stmts ++ tree_stmts ++ creature_stmts
  ++ resource_stmts ++ weather_stmts ++ ui_stmts ++ particle_stmts
  ++ daynight_stmts ++ panel_stmts ++ title_stmts ++ minimap_stmts.

(** Running it, up to the call of [plt.savefig]: what is on the axes then.
    The order in which [savefig] paints it is [painting], below. *)
Definition mockup : M unit := forM script run.


(** ** Observing a run *)

(** The depth key of a world point. *)
Definition depth_key (p : Z * Z) : Z := (fst p + snd p)%Z.

(** The parts whose statements call a shape generator at a world point
    (tiles, trees, creatures, resources). *)
Definition is_placed_entity (l : layer) : bool :=
  match l with
  | Terrain | Trees | Creatures | Resources => true
  | _ => false
  end.

(** UI overlays: health bar and need icons, panel, title, mini-map. *)
Definition is_ui_overlay (l : layer) : bool :=
  match l with
  | UIElements | UIPanel | Title | MiniMap => true
  | _ => false
  end.

(** The calls of shape generators, in the order the script makes them: which
    generator, at which world point. *)
Definition draw_sequence (l : list stmt) : list (layer * (Z * Z)) :=
  flat_map (fun s =>
    match placed_at s with
    | Some p => if is_placed_entity (layer_of s) then [ (layer_of s, p) ] else []
    | None => []
    end) l.

(** For every statement, in order, the indices [first, last) of [ax] that
    it fills when the statements run from the world [w]. *)
Fixpoint spans (l : list stmt) (w : world) : list (stmt * (nat * nat)) :=
  match l with
  | [] => []
  | s :: l' =>
      let w' := snd (run s w) in
      (s, (List.length (ax w), List.length (ax w'))) :: spans l' w'
  end.

(** The artists a piece of code leaves on the axes beyond those of [w]. *)
Definition new_artists {A : Type} (m : M A) (w : world) : list artist :=
  skipn (List.length (ax w)) (ax (snd (m w))).

(** How many outcomes of the generator a piece of code takes. *)
Definition outcomes_taken {A : Type} (m : M A) (w : world) : nat :=
  consumed (np_random (snd (m w))) - consumed (np_random w).

(** The same world with [pre] in front of its artists. *)
Definition shift (pre : list artist) (w : world) : world :=
  set_ax (pre ++ ax w) w.

(** [m], run with [pre] in front of the artists, does what [m0] does without:
    same result, same outcomes taken, same artists after [pre]. *)
Definition rel {A : Type} (pre : list artist) (m m0 : M A) : Prop :=
  forall w, m (shift pre w) = (fst (m0 w), shift pre (snd (m0 w))).

(** Code that only appends to the axes, whatever is already on them. *)
Definition frames {A : Type} (m : M A) : Prop :=
  forall pre, rel pre m m.

(** [f k = true] for the [fuel] integers from [k] on. *)
Fixpoint below (fuel : nat) (k : Z) (f : Z -> bool) : bool :=
  match fuel with
  | O => true
  | S fuel' => f k && below fuel' (k + 1)%Z f
  end.

(** The screen y of a world point with integer coordinates, and of a depth
    key. *)
Definition screen_y (p : Z * Z) : float :=
  snd (world_to_iso (float_of_int (fst p)) (float_of_int (snd p))).

Definition screen_y_of_key (s : Z) : float := float_of_int s * 0.25 + 200.

(** The screen x of two integer coordinates with the difference [d]. *)
Definition screen_x_of_diff (d : Z) : float := float_of_int d * 0.5 + 800.

(** [f k = true] for the [fuel] machine integers from [k] on, and on the
    square [0 <= x, y < n]. *)
Fixpoint below_int (fuel : nat) (k : Uint63.int) (f : Uint63.int -> bool)
  : bool :=
  match fuel with
  | O => true
  | S fuel' => f k && below_int fuel' (Uint63.add k 1%uint63) f
  end.

Definition on_square_int (n : nat) (f : Uint63.int -> Uint63.int -> bool)
  : bool :=
  below_int n 0%uint63 (fun x => below_int n 0%uint63 (f x)).

(** The sum and the difference of two small integers are computed without
    rounding. *)
Definition sum_exact_int (x y : Uint63.int) : bool :=
  PrimFloat.Leibniz.eqb (PrimFloat.of_uint63 x + PrimFloat.of_uint63 y)
                        (PrimFloat.of_uint63 (Uint63.add x y)).

Definition diff_exact_int (x y : Uint63.int) : bool :=
  if Uint63.leb y x
  then PrimFloat.Leibniz.eqb (PrimFloat.of_uint63 x - PrimFloat.of_uint63 y)
                             (PrimFloat.of_uint63 (Uint63.sub x y))
  else PrimFloat.Leibniz.eqb (PrimFloat.of_uint63 x - PrimFloat.of_uint63 y)
                             (- PrimFloat.of_uint63 (Uint63.sub y x)).

(** The place of a float in the order of the floats: an integer that grows
    with the float, for zero and for the normal numbers. *)
Definition normal_parts (m : positive) (e : Z) : bool :=
  ((4503599627370496 <=? Zpos m) && (Zpos m <? 9007199254740992)
   && (-1075 <? e))%Z.

Definition rank (f : float) : option Z :=
  match Prim2SF f with
  | S754_zero _ => Some 0%Z
  | S754_finite s m e =>
      if normal_parts m e
      then let r := ((e + 1075) * 9007199254740992 + Zpos m)%Z in
           Some (if s then (- r)%Z else r)
      else None
  | _ => None
  end.

(** The rank of [f z] is below the rank of [f (z + 1)]. *)
Definition ascends (f : Z -> float) (z : Z) : bool :=
  match rank (f z), rank (f (z + 1)%Z) with
  | Some a, Some b => (a <? b)%Z
  | _, _ => false
  end.

(** The face colour of a patch. *)
Definition facecolor_of (a : artist) : option string :=
  match a with
  | Polygon _ c | Circle _ _ c | Ellipse _ _ _ c
  | FancyBboxPatch _ _ _ c | Rectangle _ _ _ c => Some c
  | AxesImage | Arc _ _ _ _ _ _ | Line2D _ _ _ | Text _ _ _ => None
  end.

(** A colour written [#rrggbb], one of the forms matplotlib accepts. (A
    colour string it refuses makes the constructor of a patch raise
    [ValueError] before anything is added to the axes; the generators are
    modelled for the colours it accepts.) *)
Definition is_hex_digit (c : Ascii.ascii) : bool :=
  let n := Ascii.nat_of_ascii c in
  ((48 <=? n) && (n <=? 57) || (65 <=? n) && (n <=? 70)
   || (97 <=? n) && (n <=? 102))%nat.

Definition is_hex_color (s : string) : bool :=
  match s with
  | String c digits =>
      Ascii.eqb c "#"%char
      && (String.length digits =? 6)%nat
      && forallb is_hex_digit (list_ascii_of_string digits)
  | EmptyString => false
  end.

(** Code that only appends to the axes, in terms of what it leaves behind:
    the artists that were there stay in front, unchanged, and what is added,
    what is returned and what becomes of the generator do not depend on
    them. *)
Definition only_appends {A : Type} (m : M A) : Prop :=
  (forall w, ax (snd (m w)) = ax w ++ new_artists m w) /\
  (forall w1 w2,
     np_random w1 = np_random w2 -> np w1 = np w2 ->
     new_artists m w1 = new_artists m w2 /\
     np_random (snd (m w1)) = np_random (snd (m w2)) /\
     np (snd (m w1)) = np (snd (m w2)) /\
     fst (m w1) = fst (m w2)).

(** The artists [draw_creature] adds for an emotion and for an action,
    beyond the seven of every creature (shadow, body, head, eyes, pupils). *)
Definition emotion_artists (emotion : string) : nat :=
  if String.eqb emotion "happy" then 5
  else if String.eqb emotion "sad" then 2
  else if String.eqb emotion "angry" then 2
  else 0.

Definition action_artists (action : option string) : nat :=
  match action with
  | None => 0
  | Some a => if String.eqb a "eating" then 1
              else if String.eqb a "sleeping" then 3
              else if String.eqb a "talking" then 4
              else 0
  end.

(** Whether the next outcome of the generator, read as [np.random.random()],
    exceeds 0.5. *)
Definition has_spots (w : world) : bool :=
  let g := np_random w in
  PrimFloat.ltb 0.5
    (float_of_int (outcomes g (consumed g) mod 2 ^ 53) * 0x1p-53).

(** For every statement, in order, the artists it adds when the statements
    run from the world [w]. *)
Fixpoint trace (l : list stmt) (w : world) : list (stmt * list artist) :=
  match l with
  | [] => []
  | s :: l' => (s, new_artists (run s) w) :: trace l' (snd (run s w))
  end.

(** [spans] without the code of the statements: the part of the script, the
    world point and the indices. *)
Definition regions (l : list stmt) (w : world)
  : list (layer * option (Z * Z) * (nat * nat)) :=
  map (fun e => (layer_of (fst e), placed_at (fst e), snd e)) (spans l w).

(** The parts of the script, numbered from top to bottom. *)
Definition layer_rank (l : layer) : nat :=
  match l with
  | Background => 0
  | Terrain => 1
  | Trees => 2
  | Creatures => 3
  | Resources => 4
  | Weather => 5
  | UIElements => 6
  | ParticleEffects => 7
  | DayNight => 8
  | UIPanel => 9
  | Title => 10
  | MiniMap => 11
  end.

Fixpoint ranks_ascend (l : list layer) : bool :=
  match l with
  | a :: (b :: _) as l' => (layer_rank a <=? layer_rank b)%nat && ranks_ascend l'
  | _ => true
  end.

(** A world to run the script in: empty axes, some sequence of outcomes, and
    stand-ins for the three numpy functions. *)
Definition sample_world : world :=
  {| ax := [];
     np_random := {| outcomes := fun k => (Z.of_nat k * 7919)%Z; consumed := 0 |};
     np := {| radians := fun x => x * 0x1.1df46a2529d39p-6;
              cos := fun x => 1 - x * x * 0.5;
              sin := fun x => x |} |}.

(** Another world: something on the axes already, and a generator that has
    produced five outcomes and will go on as that of [sample_world] starts. *)
Definition reseeded_world : world :=
  {| ax := [AxesImage];
     np_random := {| outcomes := fun k => ((Z.of_nat k - 5) * 7919)%Z;
                     consumed := 5 |};
     np := np sample_world |}.

(** ** Seeding *)

(** Two worlds whose generators will produce the same outcomes from now on,
    as after the same [np.random.seed]. *)
Definition same_outcomes_ahead (w1 w2 : world) : Prop :=
  forall k : nat,
    outcomes (np_random w1) (k + consumed (np_random w1))
    = outcomes (np_random w2) (k + consumed (np_random w2)).

(** Code that does the same from both worlds: it adds the same artists,
    returns the same value, and leaves generators that again will produce
    the same outcomes. *)
Definition reproduces {A : Type} (m : M A) (w1 w2 : world) : Prop :=
  new_artists m w1 = new_artists m w2 /\
  fst (m w1) = fst (m w2) /\
  same_outcomes_ahead (snd (m w1)) (snd (m w2)).

(** The x of the first grass blade of a tile, its second artist. *)
Definition first_blade_x (l : list artist) : float :=
  match nth 1 l AxesImage with
  | Line2D (x :: _) _ _ => x
  | _ => 0
  end.

(** ** Saving the figure *)

(** The zorder matplotlib gives an artist when the script gives none:
    images 0, patches 1, lines 2, texts 3. *)
Definition zorder (a : artist) : Z :=
  match a with
  | AxesImage => 0
  | Polygon _ _ | Circle _ _ _ | Ellipse _ _ _ _ | Arc _ _ _ _ _ _
  | FancyBboxPatch _ _ _ _ | Rectangle _ _ _ _ => 1
  | Line2D _ _ _ => 2
  | Text _ _ _ => 3
  end%Z.

(** [sorted(artists, key=zorder)], on artists numbered by their index in
    [ax]: a stable sort, an artist goes in front of the first one whose
    zorder is not smaller. *)
Fixpoint insert_by_zorder (x : nat * artist) (l : list (nat * artist))
  : list (nat * artist) :=
  match l with
  | [] => [x]
  | y :: l' => if (zorder (snd x) <=? zorder (snd y))%Z then x :: y :: l'
               else y :: insert_by_zorder x l'
  end.

Definition sorted_by_zorder (l : list (nat * artist)) : list (nat * artist) :=
  fold_right insert_by_zorder [] l.

(** The order in which the artists of the axes are painted: their indices
    in [ax], first painted first. *)
Definition painting (artists : list artist) : list nat :=
  map fst (sorted_by_zorder (combine (seq 0 (List.length artists)) artists)).

(** [plt.savefig]: the axes paints its artists sorted by zorder. *)
Definition savefig : M (list nat) := fun w => (painting (ax w), w).

(** The script with its last statement. *)
Definition mockup_saved : M (list nat) := mockup ;; savefig.

(** The artist with the index [p] is painted before the one with the index
    [q], so that the second covers the first where they overlap. *)
Definition painted_before (artists : list artist) (p q : nat) : Prop :=
  exists i j, (i < j)%nat /\
              nth_error (painting artists) i = Some p /\
              nth_error (painting artists) j = Some q.

Definition zorder_at (artists : list artist) (p : nat) : Z :=
  zorder (nth p artists AxesImage).

(** Smaller zorder first, and smaller index first among equal zorders. *)
Definition paints_first (x y : nat * artist) : Prop :=
  (zorder (snd x) < zorder (snd y))%Z \/
  (zorder (snd x) = zorder (snd y) /\ (fst x < fst y)%nat).

End Mockup.


(** * Properties of the sprite atlases *)

Section AtlasFacts.

Import Sprites.

(** ** Loops *)

(** A loop keeps what every iteration keeps. *)
Lemma for_each_invariant {A S : Type} (P : S -> Prop) (Q : A -> Prop)
    (body : A -> S -> S) (l : list A) :
  Forall Q l ->
  (forall a s, Q a -> P s -> P (body a s)) ->
  forall s, P s -> P (for_each l body s).
Proof.
  intros HQ Hbody. unfold for_each.
  induction HQ as [|a l Ha _ IH]; intros s Hs; simpl; auto.
Qed.

Lemma range_bounds (n : nat) :
  Forall (fun i => 0 <= i < Z.of_nat n) (range n).
Proof.
  unfold range. apply Forall_forall. intros i Hi.
  apply in_map_iff in Hi. destruct Hi as [k [<- Hk]].
  apply in_seq in Hk. lia.
Qed.

Lemma enumerate_bounds {A : Type} (l : list A) :
  Forall (fun ia => 0 <= fst ia < Z.of_nat (List.length l)) (enumerate l).
Proof.
  unfold enumerate. apply Forall_forall. intros [i a] Hi.
  apply in_combine_l in Hi. simpl.
  pose proof (range_bounds (List.length l)) as H.
  rewrite Forall_forall in H. now apply H.
Qed.

(** ** What one iteration draws *)

Lemma size_draw (s : shape) (im : image) : size (draw s im) = size im.
Proof. reflexivity. Qed.

Lemma creature_frame_size idx name c frame atlas :
  size (creature_frame idx name c frame atlas) = size atlas.
Proof.
  unfold creature_frame. simpl.
  destruct (String.eqb name "Walk" && (frame mod 2 =? 0)); reflexivity.
Qed.

Lemma terrain_variant_size idx name c variant atlas :
  size (terrain_variant idx name c variant atlas) = size atlas.
Proof.
  unfold terrain_variant. simpl.
  destruct (String.eqb name "Forest"); reflexivity.
Qed.

Ltac in_cell :=
  repeat constructor; simpl; lia.

Lemma creature_frame_drawn idx name c frame atlas :
  exists new,
    drawn (creature_frame idx name c frame atlas) = drawn atlas ++ new /\
    new <> [] /\
    Forall (within (creature_rect idx frame)) new.
Proof.
  unfold creature_frame, creature_rect, cell_rect, creature_offsets, within.
  destruct (String.eqb name "Walk" && (frame mod 2 =? 0)); simpl;
    repeat rewrite <- app_assoc; simpl;
    eexists; (split; [reflexivity | split; [discriminate | in_cell]]).
Qed.

Lemma terrain_variant_drawn idx name c variant atlas :
  exists new,
    drawn (terrain_variant idx name c variant atlas) = drawn atlas ++ new /\
    new <> [] /\
    Forall (within (terrain_rect idx variant)) new.
Proof.
  unfold terrain_variant, terrain_rect, cell_rect, terrain_offsets, within.
  destruct (String.eqb name "Forest"); simpl;
    repeat rewrite <- app_assoc; simpl;
    eexists; (split; [reflexivity | split; [discriminate | in_cell]]).
Qed.

(** ** Comparing shapes *)

Lemma range_In (n : nat) (z : Z) : 0 <= z < Z.of_nat n -> In z (range n).
Proof.
  intros Hz. unfold range. apply in_map_iff. exists (Z.to_nat z).
  split; [lia | apply in_seq; lia].
Qed.

Lemma color_eqb_eq (a b : color) : color_eqb a b = true -> a = b.
Proof.
  unfold color_eqb. revert b.
  induction a as [|x a IH]; intros [|y b] H; simpl in H; try discriminate; auto.
  apply andb_true_iff in H. destruct H as [Hl H].
  apply andb_true_iff in H. destruct H as [Hxy H].
  apply Z.eqb_eq in Hxy. simpl in Hxy. subst y. f_equal.
  apply IH. now rewrite Hl, H.
Qed.

Lemma points_eqb_eq (a b : list (Z * Z)) : points_eqb a b = true -> a = b.
Proof.
  unfold points_eqb. revert b.
  induction a as [|[x y] a IH]; intros [|[x' y'] b] H; simpl in H;
    try discriminate; auto.
  apply andb_true_iff in H. destruct H as [Hl H].
  apply andb_true_iff in H. destruct H as [Hxy H].
  apply andb_true_iff in Hxy. destruct Hxy as [Hx Hy].
  apply Z.eqb_eq in Hx, Hy. subst x' y'. f_equal.
  apply IH. now rewrite Hl, H.
Qed.

Lemma outline_eqb_eq (a b : option color) : outline_eqb a b = true -> a = b.
Proof.
  destruct a as [a|], b as [b|]; simpl; intros H; try discriminate; auto.
  f_equal. now apply color_eqb_eq.
Qed.

Lemma shape_eqb_eq (s t : shape) : shape_eqb s t = true -> s = t.
Proof.
  destruct s as [[[[x0 y0] x1] y1] f o | xy f o],
           t as [[[[x0' y0'] x1'] y1'] f' o' | xy' f' o'];
    simpl; intros H; try discriminate;
    repeat (apply andb_true_iff in H; destruct H as [H ?]).
  - repeat match goal with
           | E : (_ =? _) = true |- _ => apply Z.eqb_eq in E; subst
           end.
    f_equal; [apply color_eqb_eq | apply outline_eqb_eq]; assumption.
  - f_equal; auto using color_eqb_eq, outline_eqb_eq.
    apply points_eqb_eq. unfold points_eqb.
    apply andb_true_iff. now split.
Qed.

Lemma shapes_eqb_eq (l l' : list shape) : shapes_eqb l l' = true -> l = l'.
Proof.
  revert l'. induction l as [|s l IH]; intros [|s' l'] H; simpl in H;
    try discriminate; auto.
  apply andb_true_iff in H. destruct H as [Hs Hl].
  f_equal; [now apply shape_eqb_eq | now apply IH].
Qed.

Lemma creature_cells_checked :
  forallb (fun c => forallb (creature_cell_ok c) (range 8)) (range 8) = true.
Proof. vm_compute. reflexivity. Qed.

Lemma terrain_cells_checked :
  forallb (fun b => forallb (terrain_cell_ok b) (range 4)) (range 5) = true.
Proof. vm_compute. reflexivity. Qed.

Lemma creature_cell_checked (c v : Z) :
  0 <= c < 8 -> 0 <= v < 8 -> creature_cell_ok c v = true.
Proof.
  intros Hc Hv. pose proof creature_cells_checked as H.
  rewrite forallb_forall in H. specialize (H c (range_In 8 c Hc)).
  rewrite forallb_forall in H. exact (H v (range_In 8 v Hv)).
Qed.

Lemma terrain_cell_checked (b v : Z) :
  0 <= b < 5 -> 0 <= v < 4 -> terrain_cell_ok b v = true.
Proof.
  intros Hb Hv. pose proof terrain_cells_checked as H.
  rewrite forallb_forall in H. specialize (H b (range_In 5 b Hb)).
  rewrite forallb_forall in H. exact (H v (range_In 4 v Hv)).
Qed.

(** ** The particle sprites and the run of the script *)

Lemma saves_into_made_spec (evs : list event) (made : list string) :
  saves_into_made made evs = true ->
  forall i path img,
    nth_error evs i = Some (save path img) ->
    In (dirname path) made \/
    exists j, (j < i)%nat /\ nth_error evs j = Some (makedirs (dirname path)).
Proof.
  revert made. induction evs as [|e evs IH]; intros made H i path img Hi.
  - destruct i; discriminate.
  - destruct i as [|i]; simpl in Hi.
    + injection Hi as ->. simpl in H.
      apply andb_true_iff in H. destruct H as [H _].
      apply existsb_exists in H. destruct H as (d & Hd & E).
      apply String.eqb_eq in E. subst d. now left.
    + destruct e as [d|p im|t]; simpl in H.
      * destruct (IH (d :: made) H i path img Hi) as [[<-|Hin]|(j & Hj & Ej)].
        -- right. exists 0%nat. split; [lia | reflexivity].
        -- now left.
        -- right. exists (S j). split; [lia | exact Ej].
      * apply andb_true_iff in H. destruct H as [_ H].
        destruct (IH made H i path img Hi) as [Hin|(j & Hj & Ej)];
          [now left|].
        right. exists (S j). split; [lia | exact Ej].
      * destruct (IH made H i path img Hi) as [Hin|(j & Hj & Ej)];
          [now left|].
        right. exists (S j). split; [lia | exact Ej].
Qed.


End AtlasFacts.

(** ** Cell rectangles *)

(** C1, where the claim fails: in the terrain atlas the biome (the category)
    selects the column and the variant the row, so the cell of biome 1
    ("Desert"), variant 0 is at (64, 0), not at (0, 32) as the
    claimed formula gives for 64x32 cells. *)
Lemma terrain_rect_is_transposed :
  Sprites.terrain_rect 1 0 = (64, 0, 128, 32) /\
  Sprites.spec_rect 64 32 1 0 = (0, 32, 64, 64) /\
  Sprites.terrain_rect 1 0 <> Sprites.spec_rect 64 32 1 0.
Proof. repeat split. discriminate. Qed.

(** C1, as amended: in the creature atlas (48x48 cells) the rect of frame [v]
    of the animation in row [c] is
    [(v*48, c*48, v*48 + 48, c*48 + 48)], frames along x and animation rows
    along y; in the terrain atlas (64x32 cells) the grid is the other way
    round, the rect of variant [v] of biome [b] being
    [(b*64, v*32, b*64 + 64, v*32 + 32)]. The rect is a function of the two
    indices alone. "Walk" is row 1 of the creature atlas and its frame 2 has
    the rect (96, 48, 144, 96). *)
Theorem atlas_cell_rect :
  (forall c v, Sprites.creature_rect c v = Sprites.spec_rect 48 48 c v) /\
  (forall b v,
     Sprites.terrain_rect b v = (b * 64, v * 32, b * 64 + 64, v * 32 + 32)) /\
  Sprites.row_index "Idle" Sprites.animations = Some 0 /\
  Sprites.row_index "Walk" Sprites.animations = Some 1 /\
  Sprites.creature_rect 1 2 = (96, 48, 144, 96).
Proof. repeat split. Qed.

(** ** Canvas size *)

(** C4, where the claim fails: the terrain canvas is 320x128, five biomes
    wide and four variants high, while the claimed formula gives
    (4 * 64, 5 * 32) = (256, 160). *)
Lemma terrain_canvas_is_transposed :
  Sprites.size Sprites.create_terrain_atlas = (320, 128) /\
  Sprites.spec_canvas_size 4 (Z.of_nat (List.length Sprites.biomes)) 64 32
    = (256, 160) /\
  Sprites.size Sprites.create_terrain_atlas
    <> Sprites.spec_canvas_size 4 (Z.of_nat (List.length Sprites.biomes)) 64 32.
Proof. repeat split. discriminate. Qed.

(** C4, as amended: the creature canvas is (frames * 48, animations * 48) =
    (384, 384); the terrain canvas is (biomes * 64, variants * 32) =
    (320, 128), categories along the width. The size is fixed when the image
    is created, before anything is drawn, and no drawing changes it. *)
Theorem atlas_canvas_size :
  Sprites.size Sprites.create_creature_atlas
    = Sprites.spec_canvas_size 8 (Z.of_nat (List.length Sprites.animations)) 48 48 /\
  Sprites.size Sprites.create_terrain_atlas
    = (Z.of_nat (List.length Sprites.biomes) * 64, 4 * 32) /\
  (forall sz bg,
     Sprites.size (Sprites.Image_new sz bg) = sz /\
     Sprites.drawn (Sprites.Image_new sz bg) = []) /\
  (forall s im, Sprites.size (Sprites.draw s im) = Sprites.size im) /\
  (forall idx name c frame atlas,
     Sprites.size (Sprites.creature_frame idx name c frame atlas)
       = Sprites.size atlas) /\
  (forall idx name c variant atlas,
     Sprites.size (Sprites.terrain_variant idx name c variant atlas)
       = Sprites.size atlas).
Proof.
  split; [reflexivity|]. split; [reflexivity|]. split; [now split|].
  split; [apply size_draw|]. split.
  - apply creature_frame_size.
  - apply terrain_variant_size.
Qed.

(** ** The cells tile the canvas *)

Lemma grid_cell_unique (w h c v c' v' : Z) (p : Z * Z) :
  0 < w -> 0 < h ->
  Sprites.in_rect (c * w, v * h, c * w + w, v * h + h) p ->
  Sprites.in_rect (c' * w, v' * h, c' * w + w, v' * h + h) p ->
  c = c' /\ v = v'.
Proof.
  unfold Sprites.in_rect. intros Hw Hh [Hx Hy] [Hx' Hy']. split; nia.
Qed.

Lemma grid_cell_exists (w h cols rows : Z) (p : Z * Z) :
  0 < w -> 0 < h ->
  Sprites.in_canvas (cols * w, rows * h) p ->
  0 <= fst p / w < cols /\ 0 <= snd p / h < rows /\
  Sprites.in_rect (fst p / w * w, snd p / h * h,
                   fst p / w * w + w, snd p / h * h + h) p.
Proof.
  unfold Sprites.in_canvas, Sprites.in_rect. simpl. intros Hw Hh [Hx Hy].
  pose proof (Z.div_mod (fst p) w ltac:(lia)) as Ex.
  pose proof (Z.mod_pos_bound (fst p) w Hw) as Bx.
  pose proof (Z.div_mod (snd p) h ltac:(lia)) as Ey.
  pose proof (Z.mod_pos_bound (snd p) h Hh) as By.
  repeat split; nia.
Qed.

(** C5: in both atlases a pixel lies in at most one cell, so the rects of
    two distinct index pairs do not overlap, and the pixels of the canvas are
    exactly the pixels of the cells of the grid (8 rows of 8 frames; 5 biomes
    of 4 variants): no gap, nothing outside the canvas. *)
Theorem atlas_cells_tile_canvas :
  (forall c v c' v' p,
     Sprites.in_rect (Sprites.creature_rect c v) p ->
     Sprites.in_rect (Sprites.creature_rect c' v') p ->
     (c, v) = (c', v')) /\
  (forall p,
     Sprites.in_canvas (Sprites.size Sprites.create_creature_atlas) p <->
     exists c v,
       0 <= c < Z.of_nat (List.length Sprites.animations) /\ 0 <= v < 8 /\
       Sprites.in_rect (Sprites.creature_rect c v) p) /\
  (forall b v b' v' p,
     Sprites.in_rect (Sprites.terrain_rect b v) p ->
     Sprites.in_rect (Sprites.terrain_rect b' v') p ->
     (b, v) = (b', v')) /\
  (forall p,
     Sprites.in_canvas (Sprites.size Sprites.create_terrain_atlas) p <->
     exists b v,
       0 <= b < Z.of_nat (List.length Sprites.biomes) /\ 0 <= v < 4 /\
       Sprites.in_rect (Sprites.terrain_rect b v) p).
Proof.
  split; [|split; [|split]].
  - intros c v c' v' p H H'.
    destruct (grid_cell_unique 48 48 v c v' c' p) as [-> ->]; auto; lia.
  - intros p. change (Sprites.size Sprites.create_creature_atlas) with (8 * 48, 8 * 48).
    split.
    + intros Hp. destruct (grid_cell_exists 48 48 8 8 p) as (Hc & Hr & Hin);
        [lia | lia | exact Hp |].
      exists (snd p / 48), (fst p / 48). simpl. repeat split; try lia; apply Hin.
    + intros (c & v & Hc & Hv & Hx & Hy). simpl in *.
      unfold Sprites.in_canvas. simpl. lia.
  - intros b v b' v' p H H'.
    destruct (grid_cell_unique 64 32 b v b' v' p) as [-> ->]; auto; lia.
  - intros p. change (Sprites.size Sprites.create_terrain_atlas) with (5 * 64, 4 * 32).
    split.
    + intros Hp. destruct (grid_cell_exists 64 32 5 4 p) as (Hc & Hr & Hin);
        [lia | lia | exact Hp |].
      exists (fst p / 64), (snd p / 32). simpl. repeat split; try lia; apply Hin.
    + intros (b & v & Hb & Hv & Hx & Hy). simpl in *.
      unfold Sprites.in_canvas. simpl. lia.
Qed.

(** The pixel (100, 50) of the creature atlas lies in the cell of row 1,
    frame 2 and in no other; the pixel (70, 40) of the terrain atlas in the
    cell of biome 1, variant 1. *)
Lemma atlas_cells_tile_canvas_witness :
  (forall c v, Sprites.in_rect (Sprites.creature_rect c v) (100, 50) ->
               (1, 2) = (c, v)) /\
  (exists c v, 0 <= c < 8 /\ 0 <= v < 8 /\
               Sprites.in_rect (Sprites.creature_rect c v) (100, 50)) /\
  (forall b v, Sprites.in_rect (Sprites.terrain_rect b v) (70, 40) ->
               (1, 1) = (b, v)).
Proof.
  destruct atlas_cells_tile_canvas as (Hc1 & Hc2 & Ht1 & _).
  split; [|split].
  - intros c v. apply (Hc1 1 2 c v (100, 50)). simpl. lia.
  - apply (proj1 (Hc2 (100, 50))). unfold Sprites.in_canvas. simpl. lia.
  - intros b v. apply (Ht1 1 1 b v (70, 40)). simpl. lia.
Defined.

(** ** What the loops draw, and where *)

Lemma drawn_in_grid_step cell n m i j im im' new :
  0 <= i < n -> 0 <= j < m ->
  Sprites.drawn im' = Sprites.drawn im ++ new ->
  Forall (Sprites.within (cell i j)) new ->
  Sprites.drawn_in_grid cell n m im -> Sprites.drawn_in_grid cell n m im'.
Proof.
  unfold Sprites.drawn_in_grid. intros Hi Hj -> Hnew Him.
  apply Forall_app. split; [exact Him|].
  eapply Forall_impl; [|exact Hnew]. intros s Hs. now exists i, j.
Qed.

(** Every iteration of the loops only adds shapes, at least one, and all
    of them inside the rect of its own cell: none reaches a neighbouring
    cell. The loops run over rows 0..7 and frames 0..7 (biomes 0..4 and
    variants 0..3) only, so every shape of a finished atlas lies inside a
    cell of the grid. *)
Theorem atlas_cells_requested_in_grid :
  (forall idx name c frame atlas, exists new,
     Sprites.drawn (Sprites.creature_frame idx name c frame atlas)
       = Sprites.drawn atlas ++ new /\
     new <> [] /\
     Forall (Sprites.within (Sprites.creature_rect idx frame)) new) /\
  (forall idx name c variant atlas, exists new,
     Sprites.drawn (Sprites.terrain_variant idx name c variant atlas)
       = Sprites.drawn atlas ++ new /\
     new <> [] /\
     Forall (Sprites.within (Sprites.terrain_rect idx variant)) new) /\
  Sprites.drawn_in_grid Sprites.creature_rect 8 8 Sprites.create_creature_atlas /\
  Sprites.drawn_in_grid Sprites.terrain_rect 5 4 Sprites.create_terrain_atlas.
Proof.
  split; [exact creature_frame_drawn|]. split; [exact terrain_variant_drawn|].
  split.
  - unfold Sprites.create_creature_atlas.
    apply for_each_invariant
      with (Q := fun ia => 0 <= fst ia < Z.of_nat (List.length Sprites.animations)).
    + apply enumerate_bounds.
    + intros [i [name c]] s Hi Hs. cbn in Hi.
      apply for_each_invariant with (Q := fun f => 0 <= f < Z.of_nat 8).
      * apply range_bounds.
      * intros f s' Hf Hs'.
        destruct (creature_frame_drawn i name c f s') as (new & E & _ & Hin).
        apply (drawn_in_grid_step _ 8 8 i f s' _ new); auto; cbn in Hf; lia.
      * exact Hs.
    + constructor.
  - unfold Sprites.create_terrain_atlas.
    apply for_each_invariant
      with (Q := fun ia => 0 <= fst ia < Z.of_nat (List.length Sprites.biomes)).
    + apply enumerate_bounds.
    + intros [i [name c]] s Hi Hs. cbn in Hi.
      apply for_each_invariant with (Q := fun f => 0 <= f < Z.of_nat 4).
      * apply range_bounds.
      * intros f s' Hf Hs'.
        destruct (terrain_variant_drawn i name c f s') as (new & E & _ & Hin).
        apply (drawn_in_grid_step _ 5 4 i f s' _ new); auto; cbn in Hf; lia.
      * exact Hs.
    + constructor.
Qed.

(** Every cell of the grid is drawn, and drawn once: the shapes of the
    finished creature atlas that lie in the cell of row [c] and frame [v]
    are exactly the shapes that one run of the loop body for this row and
    frame, with the name and the colour of the row, draws on a blank image,
    in the same order; likewise for the variant [v] of the biome [b] in the
    terrain atlas. *)
Theorem atlas_cells_drawn_once :
  (forall c v anim_name col,
     0 <= c -> 0 <= v < 8 ->
     nth_error Sprites.animations (Z.to_nat c) = Some (anim_name, col) ->
     Sprites.shapes_in (Sprites.creature_rect c v) Sprites.create_creature_atlas
     = Sprites.drawn (Sprites.creature_frame c anim_name col v
                        (Sprites.Image_new (384, 384) [0; 0; 0; 0]))) /\
  (forall b v biome_name col,
     0 <= b -> 0 <= v < 4 ->
     nth_error Sprites.biomes (Z.to_nat b) = Some (biome_name, col) ->
     Sprites.shapes_in (Sprites.terrain_rect b v) Sprites.create_terrain_atlas
     = Sprites.drawn (Sprites.terrain_variant b biome_name col v
                        (Sprites.Image_new (320, 128) [0; 0; 0; 0]))).
Proof.
  split.
  - intros c v name col Hc Hv Hn.
    assert (Hc' : 0 <= c < 8).
    { assert (Hlt : (Z.to_nat c < List.length Sprites.animations)%nat)
        by (apply nth_error_Some; rewrite Hn; discriminate).
      simpl in Hlt. lia. }
    pose proof (creature_cell_checked c v Hc' Hv) as H.
    unfold Sprites.creature_cell_ok in H. rewrite Hn in H.
    now apply shapes_eqb_eq.
  - intros b v name col Hb Hv Hn.
    assert (Hb' : 0 <= b < 5).
    { assert (Hlt : (Z.to_nat b < List.length Sprites.biomes)%nat)
        by (apply nth_error_Some; rewrite Hn; discriminate).
      simpl in Hlt. lia. }
    pose proof (terrain_cell_checked b v Hb' Hv) as H.
    unfold Sprites.terrain_cell_ok in H. rewrite Hn in H.
    now apply shapes_eqb_eq.
Qed.

(** Frame 2 of the "Walk" row holds the body, the two eyes and the bounce;
    variant 3 of "Forest" holds the diamond and the tree dot. *)
Lemma atlas_cells_drawn_once_witness :
  Sprites.shapes_in (Sprites.creature_rect 1 2) Sprites.create_creature_atlas
  = [ Sprites.ellipse (104, 56, 136, 88) [200; 255; 200] (Some Sprites.black);
      Sprites.ellipse (110, 66, 114, 70) Sprites.black None;
      Sprites.ellipse (126, 66, 130, 70) Sprites.black None;
      Sprites.ellipse (116, 83, 124, 91) [200; 255; 200] (Some Sprites.black) ] /\
  Sprites.shapes_in (Sprites.terrain_rect 0 3) Sprites.create_terrain_atlas
  = [ Sprites.polygon [ (32, 96); (63, 112); (32, 127); (0, 112) ]
        [44; 149; 44; 255] (Some Sprites.black);
      Sprites.ellipse (28, 108, 36, 116) [0; 100; 0; 255] None ].
Proof.
  destruct atlas_cells_drawn_once as [Hc Ht]. split.
  - apply (Hc 1 2 "Walk" [200; 255; 200]); [lia | lia | reflexivity].
  - apply (Ht 0 3 "Forest" [34; 139; 34]); [lia | lia | reflexivity].
Defined.

(** ** Colours of the terrain variants *)


(** ** Shades *)

(** The colour of a variant has as many components as the base colour;
    it grows with the variant; variant 2 is the base colour itself when
    that is made of bytes; and the variants 0 to 3 of such a colour differ
    from it by at most 20 downwards and 10 upwards in every component. *)
Theorem variant_color_shades (c : Sprites.color) :
  (forall v, List.length (Sprites.variant_color c v) = List.length c) /\
  (Forall Sprites.is_byte c -> Sprites.variant_color c 2 = c) /\
  (forall v v', v <= v' ->
     Forall2 Z.le (Sprites.variant_color c v) (Sprites.variant_color c v')) /\
  (Forall Sprites.is_byte c -> forall v, 0 <= v <= 3 ->
     Forall2 (fun base shade => -20 <= shade - base <= 10)
             c (Sprites.variant_color c v)).
Proof.
  unfold Sprites.variant_color. split; [|split; [|split]].
  - intros v. apply length_map.
  - intros H. induction H as [|x l Hx _ IH]; simpl; [reflexivity|].
    unfold Sprites.is_byte in Hx. f_equal; [lia | exact IH].
  - intros v v' Hv. induction c as [|x l IH]; simpl; constructor; [nia|exact IH].
  - intros H v Hv. induction H as [|x l Hx _ IH]; simpl; constructor; [|exact IH].
    unfold Sprites.is_byte in Hx. nia.
Qed.

(** ** The particle sprites *)


(** The symbol of a particle is never drawn, and every name other than
    'heart' and 'sparkle' gets the same disc: two such particles of one
    colour have the same picture. *)
Theorem particle_sprite_fallback (name name' : string) (c : Sprites.color)
    (symbol symbol' : string) :
  String.eqb name "heart" = false -> String.eqb name "sparkle" = false ->
  String.eqb name' "heart" = false -> String.eqb name' "sparkle" = false ->
  Sprites.particle_sprite name c symbol = Sprites.particle_sprite name' c symbol'.
Proof.
  intros H1 H2 H3 H4. unfold Sprites.particle_sprite.
  now rewrite H1, H2, H3, H4.
Qed.

(** 'zzz' and 'question' have the same colour in the list of particles:
    the pictures saved as zzz.png and question.png are the same. *)
Lemma particle_sprite_fallback_witness :
  Sprites.particle_sprite "zzz" [100; 100; 255] "Z"
  = Sprites.particle_sprite "question" [100; 100; 255] "?".
Proof.
  apply (particle_sprite_fallback "zzz" "question" [100; 100; 255] "Z" "?");
    reflexivity.
Defined.

(** ** A run of the script *)

(** [main] saves eight files, under eight different paths, and each of them
    into a directory that an earlier [os.makedirs] of the same run has
    made. *)
Theorem main_saves_into_made_directories :
  List.length (Sprites.saved Sprites.main) = 8%nat /\
  NoDup (map fst (Sprites.saved Sprites.main)) /\
  (forall i path img,
     nth_error Sprites.main i = Some (Sprites.save path img) ->
     exists j, (j < i)%nat /\
               nth_error Sprites.main j
               = Some (Sprites.makedirs (Sprites.dirname path))).
Proof.
  split; [reflexivity|]. split.
  - vm_compute. repeat constructor; simpl; intuition discriminate.
  - intros i path img Hi.
    destruct (saves_into_made_spec Sprites.main []
                ltac:(vm_compute; reflexivity) i path img Hi) as [[]|H];
      exact H.
Qed.

(** The terrain atlas is the sixth event of a run; its directory is made by
    the second. *)
Lemma main_saves_into_made_directories_witness :
  exists j, (j < 5)%nat /\
            nth_error Sprites.main j
            = Some (Sprites.makedirs "assets/sprites/terrain").
Proof.
  apply (proj2 (proj2 main_saves_into_made_directories) 5%nat
           "assets/sprites/terrain/terrain_atlas.png"
           (Sprites.picture_of Sprites.create_terrain_atlas)).
  reflexivity.
Defined.

(** * Properties of the mock-up *)

Section MockupFacts.

Import Mockup.

(** ** Code that only appends to the axes *)

Lemma update_app {A : Type} (pre l : list A) (h : nat) (f : A -> A) :
  update (List.length pre + h) f (pre ++ l) = pre ++ update h f l.
Proof. induction pre as [|a pre IH]; simpl; [reflexivity | now rewrite IH]. Qed.

Lemma rel_ret {A : Type} pre (a : A) : rel pre (ret a) (ret a).
Proof. intros w. reflexivity. Qed.

Lemma rel_bind {A B : Type} pre (m m0 : M A) (k k0 : A -> M B) :
  rel pre m m0 -> (forall a, rel pre (k a) (k0 a)) ->
  rel pre (bind m k) (bind m0 k0).
Proof.
  intros Hm Hk w. unfold bind. rewrite Hm.
  destruct (m0 w) as [a w']. simpl. apply Hk.
Qed.

(** A new artist gets the next index: with [pre] in front, the index is
    larger by the length of [pre]. *)
Lemma rel_add_bind {B : Type} pre (a : artist) (k k0 : nat -> M B) :
  (forall h, rel pre (k (List.length pre + h)%nat) (k0 h)) ->
  rel pre (bind (add_artist a) k) (bind (add_artist a) k0).
Proof.
  intros Hk w. unfold bind, add_artist.
  specialize (Hk (List.length (ax w)) (set_ax (ax w ++ [a]) w)).
  unfold shift, set_ax in *. simpl in *.
  rewrite length_app, <- app_assoc. exact Hk.
Qed.

Lemma rel_set_facecolor pre (h : nat) (c : string) :
  rel pre (set_facecolor (List.length pre + h) c) (set_facecolor h c).
Proof.
  intros w. unfold set_facecolor, shift, set_ax. simpl.
  now rewrite update_app.
Qed.

Lemma rel_next_outcome pre : rel pre next_outcome next_outcome.
Proof. intros w. reflexivity. Qed.

Lemma rel_randint pre low high : rel pre (randint low high) (randint low high).
Proof.
  unfold randint. apply rel_bind; [apply rel_next_outcome | intros; apply rel_ret].
Qed.

Lemma rel_random pre : rel pre random random.
Proof.
  unfold random. apply rel_bind; [apply rel_next_outcome | intros; apply rel_ret].
Qed.

Lemma rel_np_call pre f x : rel pre (np_call f x) (np_call f x).
Proof. intros w. reflexivity. Qed.

Lemma rel_add pre (a : artist) : rel pre (add a) (add a).
Proof. unfold add. apply rel_add_bind. intros h. apply rel_ret. Qed.

Lemma rel_forM {A : Type} pre (l : list A) (body body0 : A -> M unit) :
  (forall a, rel pre (body a) (body0 a)) ->
  rel pre (forM l body) (forM l body0).
Proof.
  intros Hb. induction l as [|a l IH]; simpl.
  - apply rel_ret.
  - apply rel_bind; [apply Hb | intros _; exact IH].
Qed.

(** One step of a proof that code only appends: the rule of the construct
    at the head of the code, a case analysis of the test of a conditional. *)
Ltac rel_step :=
  lazymatch goal with
  | |- rel _ (ret _) (ret _) => apply rel_ret
  | |- rel _ (set_facecolor _ _) (set_facecolor _ _) => apply rel_set_facecolor
  | |- rel _ (randint _ _) (randint _ _) => apply rel_randint
  | |- rel _ random random => apply rel_random
  | |- rel _ (np_call _ _) (np_call _ _) => apply rel_np_call
  | |- rel _ (add _) (add _) => apply rel_add
  | |- rel _ (forM _ _) (forM _ _) => apply rel_forM; intros
  | |- rel _ (bind (add_artist _) _) (bind (add_artist _) _) =>
      apply rel_add_bind; intros; cbv beta
  | |- rel _ (bind _ _) (bind _ _) => apply rel_bind; [| intros; cbv beta]
  | |- rel _ (if ?b then _ else _) _ => destruct b
  | |- rel _ (match ?p with (_, _) => _ end) _ => destruct p
  | |- rel _ (match ?o with Some _ => _ | None => _ end) _ => destruct o
  end.

Ltac rel_auto := repeat rel_step.

(** ** The shape generators only append *)

Lemma frames_draw_iso_tile x y color biome_type :
  frames (draw_iso_tile x y color biome_type).
Proof.
  intros pre. unfold draw_iso_tile, world_to_iso. cbv beta iota zeta. rel_auto.
Qed.

Lemma frames_draw_tree x y : frames (draw_tree x y).
Proof.
  intros pre. unfold draw_tree, world_to_iso. cbv beta iota zeta. rel_auto.
Qed.

Lemma frames_draw_creature x y species emotion action :
  frames (draw_creature x y species emotion action).
Proof.
  intros pre. unfold draw_creature, world_to_iso. cbv beta iota zeta. rel_auto.
Qed.

Lemma frames_draw_resource x y resource_type :
  frames (draw_resource x y resource_type).
Proof.
  intros pre. unfold draw_resource, world_to_iso. cbv beta iota zeta. rel_auto.
Qed.

(** What code that only appends does to any world: it leaves the artists
    of the world in place and adds what it adds to empty axes. *)
Lemma frames_run {A : Type} (m : M A) (w : world) :
  frames m ->
  m w = (fst (m (set_ax [] w)), shift (ax w) (snd (m (set_ax [] w)))).
Proof.
  intros H. rewrite <- (H (ax w) (set_ax [] w)). f_equal.
  destruct w as [l g n]. unfold shift, set_ax. simpl. now rewrite app_nil_r.
Qed.

Lemma frames_ax {A : Type} (m : M A) (w : world) :
  frames m -> ax (snd (m w)) = ax w ++ ax (snd (m (set_ax [] w))).
Proof. intros H. now rewrite (frames_run m w H). Qed.

Lemma frames_new_artists {A : Type} (m : M A) (w : world) :
  frames m -> new_artists m w = ax (snd (m (set_ax [] w))).
Proof.
  intros H. unfold new_artists. rewrite (frames_ax m w H).
  rewrite skipn_app, skipn_all, Nat.sub_diag. reflexivity.
Qed.

Lemma frames_grows {A : Type} (m : M A) (w : world) :
  frames m -> (List.length (ax w) <= List.length (ax (snd (m w))))%nat.
Proof. intros H. rewrite (frames_ax m w H), length_app. lia. Qed.

(** ** Every statement of the script only appends *)

Lemma Forall_tiles (P : stmt -> Prop) xs ys shade biome :
  (forall x y, P (Stmt Terrain (Some (x, y))
                       (draw_iso_tile (float_of_int x) (float_of_int y)
                                      (shade x y) biome))) ->
  Forall P (tiles xs ys shade biome).
Proof.
  intros H. unfold tiles. apply Forall_forall. intros s Hs.
  apply in_flat_map in Hs. destruct Hs as [x [_ Hs]].
  apply in_map_iff in Hs. destruct Hs as [y [<- _]]. apply H.
Qed.

Lemma Forall_map_intro {A B : Type} (P : B -> Prop) (f : A -> B) (l : list A) :
  (forall a, P (f a)) -> Forall P (map f l).
Proof. intros H. apply Forall_forall. intros b Hb.
  apply in_map_iff in Hb. destruct Hb as [a [<- _]]. apply H. Qed.

Lemma Forall_app_intro {A : Type} (P : A -> Prop) (l1 l2 : list A) :
  Forall P l1 -> Forall P l2 -> Forall P (l1 ++ l2).
Proof. intros H1 H2. apply Forall_app. now split. Qed.

Lemma frames_terrain_stmts : Forall (fun s => frames (run s)) terrain_stmts.
Proof.
  unfold terrain_stmts.
  apply Forall_app_intro; [|apply Forall_app_intro];
    apply Forall_tiles; intros; apply frames_draw_iso_tile.
Qed.

Lemma frames_creature_stmts : Forall (fun s => frames (run s)) creature_stmts.
Proof.
  apply Forall_map_intro. intros [[[[x y] species] emotion] action] pre. simpl.
  apply rel_bind; [apply frames_draw_creature | intros; apply rel_ret].
Qed.

Lemma frames_daynight_stmts : Forall (fun s => frames (run s)) daynight_stmts.
Proof.
  unfold daynight_stmts. apply Forall_app_intro.
  - repeat constructor; intros pre; simpl; rel_auto.
  - apply Forall_map_intro. intros angle pre. simpl. rel_auto.
Qed.

Ltac frames_literal := repeat constructor; intros pre; simpl; rel_auto.

Lemma frames_script : Forall (fun s => frames (run s)) script.
Proof.
  unfold script.
  apply Forall_app_intro; [unfold background_stmts; frames_literal|].
  apply Forall_app_intro; [apply frames_terrain_stmts|].
  apply Forall_app_intro;
    [apply Forall_map_intro; intros pos; apply frames_draw_tree|].
  apply Forall_app_intro; [apply frames_creature_stmts|].
  apply Forall_app_intro;
    [unfold resource_stmts; repeat constructor; apply frames_draw_resource|].
  apply Forall_app_intro;
    [apply Forall_map_intro; intros _ pre; simpl; rel_auto|].
  apply Forall_app_intro;
    [unfold ui_stmts, world_to_iso; cbv beta iota zeta; frames_literal|].
  apply Forall_app_intro;
    [unfold particle_stmts, world_to_iso; cbv beta iota zeta;
     apply Forall_map_intro; intros i pre; simpl; rel_auto|].
  apply Forall_app_intro; [apply frames_daynight_stmts|].
  apply Forall_app_intro; [unfold panel_stmts; frames_literal|].
  apply Forall_app_intro; [unfold title_stmts; frames_literal|].
  unfold minimap_stmts; frames_literal.
Qed.

(** ** The order of the artists is the order of the statements *)

Lemma spans_stmts (l : list stmt) (w : world) : map fst (spans l w) = l.
Proof.
  revert w. induction l as [|s l IH]; intros w; simpl; [|rewrite IH]; reflexivity.
Qed.

Lemma spans_bounds (l : list stmt) (w : world) :
  Forall (fun s => frames (run s)) l ->
  Forall (fun e => (List.length (ax w) <= fst (snd e) <= snd (snd e))%nat)
         (spans l w).
Proof.
  intros Hl. revert w. induction Hl as [|s l Hs _ IH]; intros w; simpl.
  - constructor.
  - pose proof (frames_grows (run s) w Hs) as Hg. constructor.
    + simpl. lia.
    + eapply Forall_impl; [|apply IH]. simpl. intros e He. lia.
Qed.

Lemma spans_ordered (l : list stmt) (w : world) (i j : nat) ei ej :
  Forall (fun s => frames (run s)) l ->
  (i < j)%nat ->
  nth_error (spans l w) i = Some ei ->
  nth_error (spans l w) j = Some ej ->
  (snd (snd ei) <= fst (snd ej))%nat.
Proof.
  intros Hl. revert w i j. induction Hl as [|s l Hs Hl IH]; intros w i j Hij Hi Hj.
  - destruct i; discriminate.
  - destruct j as [|j]; [lia|]. simpl in Hj. destruct i as [|i]; simpl in Hi.
    + injection Hi as <-. simpl.
      pose proof (spans_bounds l (snd (run s w)) Hl) as Hb.
      rewrite Forall_forall in Hb. apply nth_error_In in Hj.
      specialize (Hb _ Hj). lia.
    + apply (IH (snd (run s w)) i j); auto. lia.
Qed.

(** ** Checks over a range of integers *)

Lemma below_spec (fuel : nat) (k : Z) (f : Z -> bool) :
  below fuel k f = true ->
  forall z, k <= z < k + Z.of_nat fuel -> f z = true.
Proof.
  revert k. induction fuel as [|n IH]; intros k H z Hz; [lia|].
  simpl in H. apply andb_true_iff in H. destruct H as [Hk Hn].
  destruct (Z.eq_dec z k) as [->|Hne]; [exact Hk|].
  apply (IH (k + 1)); [exact Hn | lia].
Qed.

Lemma wB_value : Uint63.wB = 9223372036854775808.
Proof. reflexivity. Qed.

Lemma below_int_spec (fuel : nat) (k : Uint63.int) (f : Uint63.int -> bool) :
  Uint63.to_Z k + Z.of_nat fuel <= Uint63.wB ->
  below_int fuel k f = true ->
  forall i, Uint63.to_Z k <= Uint63.to_Z i < Uint63.to_Z k + Z.of_nat fuel -> f i = true.
Proof.
  revert k. induction fuel as [|n IH]; intros k Hk H i Hi; [lia|].
  simpl in H. apply andb_true_iff in H. destruct H as [Hf Hn].
  destruct (Z.eq_dec (Uint63.to_Z i) (Uint63.to_Z k)) as [E|E].
  - apply Uint63.to_Z_inj in E. now subst.
  - assert (E1 : Uint63.to_Z (Uint63.add k 1%uint63) = Uint63.to_Z k + 1).
    { rewrite Uint63.add_spec, Uint63.to_Z_1, Z.mod_small; [reflexivity|].
      pose proof (Uint63.to_Z_bounded k). lia. }
    apply (IH (Uint63.add k 1%uint63)); [lia | exact Hn | lia].
Qed.

Lemma on_square_int_spec (n : nat) (f : Uint63.int -> Uint63.int -> bool) :
  Z.of_nat n <= Uint63.wB ->
  on_square_int n f = true ->
  forall x y, 0 <= x < Z.of_nat n -> 0 <= y < Z.of_nat n ->
              f (Uint63.of_Z x) (Uint63.of_Z y) = true.
Proof.
  unfold on_square_int. intros Hn H x y Hx Hy.
  assert (Ex : Uint63.to_Z (Uint63.of_Z x) = x)
    by (rewrite Uint63.of_Z_spec; apply Z.mod_small; lia).
  assert (Ey : Uint63.to_Z (Uint63.of_Z y) = y)
    by (rewrite Uint63.of_Z_spec; apply Z.mod_small; lia).
  apply (below_int_spec n 0%uint63 (f (Uint63.of_Z x)));
    rewrite ?Uint63.to_Z_0; try lia.
  apply (below_int_spec n 0%uint63 (fun x => below_int n 0%uint63 (f x)));
    rewrite ?Uint63.to_Z_0; try lia. exact H.
Qed.

Lemma sum_exact_int_checked : on_square_int 2048 sum_exact_int = true.
Proof. vm_cast_no_check (eq_refl true). Qed.

Lemma diff_exact_int_checked : on_square_int 2048 diff_exact_int = true.
Proof. vm_cast_no_check (eq_refl true). Qed.

Lemma float_of_int_nonneg (z : Z) :
  0 <= z -> float_of_int z = PrimFloat.of_uint63 (Uint63.of_Z z).
Proof. intros Hz. unfold float_of_int. now destruct (Z.ltb_spec z 0); [lia|]. Qed.

Lemma float_of_int_neg (z : Z) :
  z < 0 -> float_of_int z = (- PrimFloat.of_uint63 (Uint63.of_Z (- z)))%float.
Proof. intros Hz. unfold float_of_int. now destruct (Z.ltb_spec z 0); [|lia]. Qed.

Lemma of_Z_add (x y : Z) :
  0 <= x < 2048 -> 0 <= y < 2048 ->
  Uint63.of_Z (x + y) = Uint63.add (Uint63.of_Z x) (Uint63.of_Z y).
Proof.
  intros Hx Hy. apply Uint63.to_Z_inj.
  rewrite Uint63.add_spec, !Uint63.of_Z_spec, wB_value.
  rewrite (Z.mod_small x), (Z.mod_small y) by lia. reflexivity.
Qed.

Lemma of_Z_sub (x y : Z) :
  0 <= y <= x -> x < 2048 ->
  Uint63.of_Z (x - y) = Uint63.sub (Uint63.of_Z x) (Uint63.of_Z y).
Proof.
  intros Hy Hx. apply Uint63.to_Z_inj.
  rewrite Uint63.sub_spec, !Uint63.of_Z_spec, wB_value.
  rewrite (Z.mod_small x), (Z.mod_small y) by lia. reflexivity.
Qed.

Lemma sum_exact (x y : Z) :
  0 <= x < 2048 -> 0 <= y < 2048 ->
  (float_of_int x + float_of_int y)%float = float_of_int (x + y).
Proof.
  intros Hx Hy.
  pose proof (on_square_int_spec 2048 sum_exact_int ltac:(rewrite wB_value; lia)
                sum_exact_int_checked x y ltac:(lia) ltac:(lia)) as H.
  unfold sum_exact_int in H. apply FloatAxioms.Leibniz.eqb_spec in H.
  rewrite !float_of_int_nonneg by lia. now rewrite of_Z_add.
Qed.

Lemma diff_exact (x y : Z) :
  0 <= x < 2048 -> 0 <= y < 2048 ->
  (float_of_int x - float_of_int y)%float = float_of_int (x - y).
Proof.
  intros Hx Hy.
  pose proof (on_square_int_spec 2048 diff_exact_int ltac:(rewrite wB_value; lia)
                diff_exact_int_checked x y ltac:(lia) ltac:(lia)) as H.
  unfold diff_exact_int in H.
  assert (Ex : Uint63.to_Z (Uint63.of_Z x) = x)
    by (rewrite Uint63.of_Z_spec; apply Z.mod_small; rewrite wB_value; lia).
  assert (Ey : Uint63.to_Z (Uint63.of_Z y) = y)
    by (rewrite Uint63.of_Z_spec; apply Z.mod_small; rewrite wB_value; lia).
  rewrite (float_of_int_nonneg x), (float_of_int_nonneg y) by lia.
  destruct (Uint63.leb (Uint63.of_Z y) (Uint63.of_Z x)) eqn:L.
  - apply Uint63.leb_spec in L. rewrite Ex, Ey in L.
    apply FloatAxioms.Leibniz.eqb_spec in H.
    rewrite float_of_int_nonneg by lia. now rewrite of_Z_sub by lia.
  - assert (Hlt : x < y).
    { destruct (Z.le_gt_cases y x) as [Hle|Hgt]; [|lia].
      assert (L' : Uint63.leb (Uint63.of_Z y) (Uint63.of_Z x) = true)
        by (apply Uint63.leb_spec; now rewrite Ex, Ey).
      rewrite L' in L. discriminate. }
    apply FloatAxioms.Leibniz.eqb_spec in H.
    rewrite float_of_int_neg by lia.
    replace (- (x - y)) with (y - x) by lia. now rewrite of_Z_sub by lia.
Qed.

(** ** The order of floats through their ranks *)

Lemma normal_parts_spec (m : positive) (e : Z) :
  normal_parts m e = true ->
  4503599627370496 <= Z.pos m < 9007199254740992 /\ -1075 < e.
Proof.
  unfold normal_parts. intros H.
  apply andb_true_iff in H. destruct H as [H He].
  apply andb_true_iff in H. destruct H as [H1 H2].
  apply Z.leb_le in H1. apply Z.ltb_lt in H2, He. lia.
Qed.

Lemma rank_compare (x y : float) (a b : Z) :
  rank x = Some a -> rank y = Some b ->
  SFcompare (Prim2SF x) (Prim2SF y) = Some (a ?= b).
Proof.
  unfold rank.
  destruct (Prim2SF x) as [sx| | |sx mx ex], (Prim2SF y) as [sy| | |sy my ey];
    try discriminate.
  - intros [= <-] [= <-]. reflexivity.
  - destruct (normal_parts my ey) eqn:By; [|discriminate].
    apply normal_parts_spec in By.
    intros [= <-] [= <-]. unfold SFcompare.
    f_equal. symmetry. destruct sy.
    + apply Z.compare_gt_iff. lia.
    + apply Z.compare_lt_iff. lia.
  - destruct (normal_parts mx ex) eqn:Bx; [|discriminate].
    apply normal_parts_spec in Bx.
    intros [= <-] [= <-]. unfold SFcompare.
    f_equal. symmetry. destruct sx.
    + apply Z.compare_lt_iff. lia.
    + apply Z.compare_gt_iff. lia.
  - destruct (normal_parts mx ex) eqn:Bx; [|discriminate].
    destruct (normal_parts my ey) eqn:By; [|discriminate].
    apply normal_parts_spec in Bx, By.
    intros [= <-] [= <-]. unfold SFcompare.
    f_equal. symmetry.
    rewrite Pos.compare_cont_spec. unfold Pos.switch_Eq.
    change (Pos.compare mx my) with (Z.pos mx ?= Z.pos my).
    destruct sx, sy;
      destruct (Z.compare_spec ex ey) as [E|E|E];
      try (destruct (Z.compare_spec (Z.pos mx) (Z.pos my)) as [M|M|M]);
      cbn [CompOpp];
      first [ apply Z.compare_eq_iff; lia
            | apply Z.compare_lt_iff; lia
            | apply Z.compare_gt_iff; lia ].
Qed.

Lemma ranks_order (x y : float) (a b : Z) :
  rank x = Some a -> rank y = Some b ->
  PrimFloat.leb x y = (a <=? b) /\
  PrimFloat.ltb x y = (a <? b) /\
  (x = y -> a = b).
Proof.
  intros Hx Hy. pose proof (rank_compare x y a b Hx Hy) as C.
  split; [|split].
  - rewrite FloatAxioms.leb_spec. unfold SFleb. rewrite C.
    unfold Z.leb. now destruct (a ?= b).
  - rewrite FloatAxioms.ltb_spec. unfold SFltb. rewrite C.
    unfold Z.ltb. now destruct (a ?= b).
  - intros ->. rewrite Hx in Hy. now injection Hy.
Qed.

(** A function whose ranks ascend step by step is strictly monotone. *)
Lemma ascends_chain (f : Z -> float) (n : nat) (k : Z) :
  below n k (ascends f) = true ->
  forall (d : nat) (s : Z),
    k <= s -> s + 1 + Z.of_nat d <= k + Z.of_nat n ->
    exists a b, rank (f s) = Some a /\
                rank (f (s + 1 + Z.of_nat d)) = Some b /\ a < b.
Proof.
  intros H.
  assert (Step : forall z, k <= z < k + Z.of_nat n ->
            exists a b, rank (f z) = Some a /\ rank (f (z + 1)) = Some b /\ a < b).
  { intros z Hz. pose proof (below_spec n k (ascends f) H z Hz) as A.
    unfold ascends in A.
    destruct (rank (f z)) as [a|]; [|discriminate].
    destruct (rank (f (z + 1))) as [b|]; [|discriminate].
    exists a, b. repeat split. now apply Z.ltb_lt. }
  induction d as [|d IH]; intros s Hs Ht.
  - rewrite Z.add_0_r. apply Step. lia.
  - destruct (IH s Hs ltac:(lia)) as (a & b & Ha & Hb & Hab).
    destruct (Step (s + 1 + Z.of_nat d) ltac:(lia)) as (b' & c & Hb' & Hc & Hbc).
    rewrite Hb in Hb'. injection Hb' as <-.
    exists a, c. repeat split; auto; [|lia].
    replace (s + 1 + Z.of_nat (S d)) with (s + 1 + Z.of_nat d + 1) by lia.
    exact Hc.
Qed.

Lemma ascends_order (f : Z -> float) (n : nat) (k : Z) :
  below n k (ascends f) = true -> (0 < n)%nat ->
  forall s t, k <= s <= k + Z.of_nat n -> k <= t <= k + Z.of_nat n ->
    PrimFloat.leb (f s) (f t) = (s <=? t) /\
    PrimFloat.ltb (f s) (f t) = (s <? t) /\
    (f s = f t -> s = t).
Proof.
  intros H Hn s t Hs Ht.
  assert (R : forall z, k <= z <= k + Z.of_nat n -> exists a, rank (f z) = Some a).
  { intros z Hz. destruct (Z.eq_dec z (k + Z.of_nat n)) as [->|Hne].
    - destruct (ascends_chain f n k H 0 (k + Z.of_nat n - 1))
        as (a & b & _ & Hb & _); try lia.
      exists b.
      replace (k + Z.of_nat n) with (k + Z.of_nat n - 1 + 1 + Z.of_nat 0) at 1
        by lia.
      exact Hb.
    - destruct (ascends_chain f n k H 0 z) as (a & b & Ha & _ & _); try lia.
      now exists a. }
  destruct (R s Hs) as [a Ha], (R t Ht) as [b Hb].
  destruct (ranks_order (f s) (f t) a b Ha Hb) as (Hle & Hlt & Heq).
  assert (M : forall u v au av, k <= u -> u < v -> v <= k + Z.of_nat n ->
            rank (f u) = Some au -> rank (f v) = Some av -> au < av).
  { intros u v au av Hu Huv Hv Hau Hav.
    destruct (ascends_chain f n k H (Z.to_nat (v - u - 1)) u)
      as (a' & b' & Ha' & Hb' & Hab); try lia.
    replace (u + 1 + Z.of_nat (Z.to_nat (v - u - 1))) with v in Hb' by lia.
    rewrite Hau in Ha'. rewrite Hav in Hb'.
    injection Ha' as <-. injection Hb' as <-. exact Hab. }
  destruct (Z.lt_trichotomy s t) as [L|[E|G]].
  - pose proof (M s t a b ltac:(lia) L ltac:(lia) Ha Hb).
    rewrite Hle, Hlt. split; [|split].
    + destruct (Z.leb_spec a b), (Z.leb_spec s t); auto; lia.
    + destruct (Z.ltb_spec a b), (Z.ltb_spec s t); auto; lia.
    + intros Ef. specialize (Heq Ef). lia.
  - subst t. rewrite Ha in Hb. injection Hb as <-.
    rewrite Hle, Hlt, !Z.leb_refl, !Z.ltb_irrefl. now split.
  - pose proof (M t s b a ltac:(lia) G ltac:(lia) Hb Ha).
    rewrite Hle, Hlt. split; [|split].
    + destruct (Z.leb_spec a b), (Z.leb_spec s t); auto; lia.
    + destruct (Z.ltb_spec a b), (Z.ltb_spec s t); auto; lia.
    + intros Ef. specialize (Heq Ef). lia.
Qed.



Lemma screen_y_ascends : below 4095 0 (ascends screen_y_of_key) = true.
Proof. vm_cast_no_check (eq_refl true). Qed.

Lemma screen_x_ascends : below 4094 (-2047) (ascends screen_x_of_diff) = true.
Proof. vm_cast_no_check (eq_refl true). Qed.

(** ** The projection on the integer grid *)

Lemma screen_y_key (x y : Z) :
  0 <= x < 2048 -> 0 <= y < 2048 ->
  screen_y (x, y) = screen_y_of_key (depth_key (x, y)).
Proof.
  intros Hx Hy. unfold screen_y, screen_y_of_key, depth_key, world_to_iso. simpl.
  now rewrite sum_exact.
Qed.

Lemma key_order (s t : Z) :
  0 <= s < 4096 -> 0 <= t < 4096 ->
  (s <=? t) = PrimFloat.leb (screen_y_of_key s) (screen_y_of_key t) /\
  (s <? t) = PrimFloat.ltb (screen_y_of_key s) (screen_y_of_key t).
Proof.
  intros Hs Ht.
  destruct (ascends_order screen_y_of_key 4095 0 screen_y_ascends
              ltac:(lia) s t ltac:(lia) ltac:(lia)) as (Hle & Hlt & _).
  now rewrite Hle, Hlt.
Qed.


Lemma screen_y_of_key_injective (s t : Z) :
  0 <= s < 4096 -> 0 <= t < 4096 ->
  screen_y_of_key s = screen_y_of_key t -> s = t.
Proof.
  intros Hs Ht.
  apply (ascends_order screen_y_of_key 4095 0 screen_y_ascends
           ltac:(lia) s t ltac:(lia) ltac:(lia)).
Qed.

Lemma screen_x_of_diff_injective (d d' : Z) :
  -2048 < d < 2048 -> -2048 < d' < 2048 ->
  screen_x_of_diff d = screen_x_of_diff d' -> d = d'.
Proof.
  intros Hd Hd'.
  apply (ascends_order screen_x_of_diff 4094 (-2047) screen_x_ascends
           ltac:(lia) d d' ltac:(lia) ltac:(lia)).
Qed.

(** ** What the shape generators add *)

Lemma skipn_app_length {A : Type} (l r : list A) :
  skipn (List.length l) (l ++ r) = r.
Proof. induction l; simpl; auto. Qed.

Lemma new_artists_app {A : Type} (m : M A) (w : world) (new : list artist) :
  ax (snd (m w)) = ax w ++ new -> new_artists m w = new.
Proof. intros E. unfold new_artists. rewrite E. apply skipn_app_length. Qed.

Lemma frames_only_appends {A : Type} (m : M A) : frames m -> only_appends m.
Proof.
  intros H. split.
  - intros w. rewrite (frames_new_artists m w H). apply frames_ax, H.
  - intros w1 w2 Hg Hn.
    assert (E : set_ax [] w1 = set_ax [] w2)
      by (unfold set_ax; now rewrite Hg, Hn).
    rewrite !(frames_new_artists m _ H), (frames_run m w1 H), (frames_run m w2 H).
    rewrite E. simpl. auto.
Qed.

Lemma outcomes_taken_frames {A : Type} (m : M A) (w : world) :
  frames m -> outcomes_taken m w = outcomes_taken m (set_ax [] w).
Proof.
  intros H. unfold outcomes_taken. rewrite (frames_run m w H). reflexivity.
Qed.

(** Running code on a world whose axes are empty, step by step. *)
Ltac run_world :=
  cbv [bind add_artist add set_ax ret randint random next_outcome
       set_np_random set_facecolor np_call forM range enumerate map seq
       combine List.length fst snd ax np_random np consumed outcomes app
       update with_facecolor Z.of_nat Pos.of_succ_nat Pos.succ].

Lemma draw_tree_run x y w :
  draw_tree x y w =
  (tt, set_ax (ax w ++
     let '(ix, iy) := world_to_iso x y in
     [ FancyBboxPatch (ix - 8, iy)%float 16 40 "#654321";
       Circle (ix, iy + 40)%float 40 "#2d5016";
       Circle (ix, iy + 55)%float 35 "#2d5016";
       Circle (ix, iy + 65)%float 25 "#2d5016" ]) w).
Proof.
  rewrite (frames_run _ w (frames_draw_tree x y)).
  destruct w as [l g n]. unfold draw_tree, world_to_iso, shift.
  cbv beta iota zeta. run_world. reflexivity.
Qed.

Lemma draw_iso_tile_counts x y color biome_type w :
  outcomes_taken (draw_iso_tile x y color biome_type) w
    = (if String.eqb biome_type "grass" then 6
       else if String.eqb biome_type "desert" then 10 else 0)%nat /\
  List.length (new_artists (draw_iso_tile x y color biome_type) w)
    = (if String.eqb biome_type "grass" then 4
       else if String.eqb biome_type "desert" then 6 else 1)%nat.
Proof.
  rewrite (outcomes_taken_frames _ w (frames_draw_iso_tile x y color biome_type)).
  rewrite (frames_new_artists _ w (frames_draw_iso_tile x y color biome_type)).
  destruct w as [l g n]. unfold outcomes_taken, draw_iso_tile, world_to_iso.
  cbv beta iota zeta.
  destruct (String.eqb biome_type "grass");
    [|destruct (String.eqb biome_type "desert")];
    run_world; split; try reflexivity; lia.
Qed.

Lemma draw_resource_counts x y resource_type w :
  outcomes_taken (draw_resource x y resource_type) w
    = (if String.eqb resource_type "berries" then 10 else 0)%nat /\
  List.length (new_artists (draw_resource x y resource_type) w)
    = (if String.eqb resource_type "berries" then 6
       else if String.eqb resource_type "water" then 2
       else if String.eqb resource_type "cactus" then 17 else 0)%nat.
Proof.
  rewrite (outcomes_taken_frames _ w (frames_draw_resource x y resource_type)).
  rewrite (frames_new_artists _ w (frames_draw_resource x y resource_type)).
  destruct w as [l g n]. unfold outcomes_taken, draw_resource, world_to_iso.
  cbv beta iota zeta.
  destruct (String.eqb resource_type "berries");
    [|destruct (String.eqb resource_type "water");
      [|destruct (String.eqb resource_type "cactus")]];
    run_world; split; try reflexivity; lia.
Qed.

(** The cases of a call of [draw_creature]: species, emotion, action, and
    the outcome that decides on the spots. *)
Ltac creature_cases species emotion action :=
  destruct (String.eqb species "herbivore");
    [|destruct (String.eqb species "carnivore")];
  (destruct (String.eqb emotion "happy");
   [|destruct (String.eqb emotion "scared");
     destruct (String.eqb emotion "sad");
     destruct (String.eqb emotion "angry")]);
  (destruct action as [action|];
   [destruct (String.eqb_spec action "eating") as [->|_];
    [|destruct (String.eqb_spec action "sleeping") as [->|_];
      [|destruct (String.eqb action "talking")]]|]);
  run_world;
  match goal with
  | |- context [PrimFloat.ltb ?a ?b] => destruct (PrimFloat.ltb a b)
  end;
  run_world.

Lemma draw_creature_counts x y species emotion action w :
  fst (draw_creature x y species emotion action w) = world_to_iso x y /\
  outcomes_taken (draw_creature x y species emotion action) w
    = (if has_spots w then 7 else 1)%nat /\
  List.length (new_artists (draw_creature x y species emotion action) w)
    = (7 + emotion_artists emotion + action_artists action
       + if has_spots w then 3 else 0)%nat.
Proof.
  rewrite (outcomes_taken_frames _ w
             (frames_draw_creature x y species emotion action)).
  rewrite (frames_new_artists _ w
             (frames_draw_creature x y species emotion action)).
  rewrite (frames_run _ w (frames_draw_creature x y species emotion action)).
  destruct w as [l g n].
  unfold outcomes_taken, draw_creature, world_to_iso, has_spots,
    emotion_artists, action_artists.
  cbv beta iota zeta.
  creature_cases species emotion action; repeat split; try reflexivity; lia.
Qed.

Lemma draw_creature_eyes x y species emotion action w :
  exists body left_eye right_eye,
    let new := new_artists (draw_creature x y species emotion action) w in
    nth_error new 1 = Some body /\
    nth_error new 3 = Some left_eye /\
    nth_error new 4 = Some right_eye /\
    facecolor_of right_eye = facecolor_of left_eye /\
    facecolor_of left_eye
      = match action with
        | Some a => if String.eqb a "sleeping" then facecolor_of body
                    else Some "white"
        | None => Some "white"
        end.
Proof.
  rewrite (frames_new_artists _ w
             (frames_draw_creature x y species emotion action)).
  destruct w as [l g n].
  unfold draw_creature, world_to_iso.
  cbv beta iota zeta.
  creature_cases species emotion action;
    do 3 eexists; cbv [nth_error facecolor_of];
    repeat split; try reflexivity.
  all: match goal with
       | |- context [String.eqb ?a "sleeping"] =>
           destruct (String.eqb_spec a "sleeping"); [contradiction|reflexivity]
       end.
Qed.

(** ** The artists of the script *)

Lemma forM_cons {A : Type} (a : A) (l : list A) (body : A -> M unit) (w : world) :
  forM (a :: l) body w = forM l body (snd (body a w)).
Proof. simpl. unfold bind. now destruct (body a w). Qed.

Lemma trace_artists (l : list stmt) (w : world) :
  Forall (fun s => frames (run s)) l ->
  ax (snd (forM l run w)) = ax w ++ List.concat (map snd (trace l w)).
Proof.
  intros Hl. revert w. induction Hl as [|s l Hs _ IH]; intros w.
  - simpl. now rewrite app_nil_r.
  - rewrite forM_cons, IH. simpl.
    rewrite (frames_new_artists (run s) w Hs), (frames_ax (run s) w Hs).
    now rewrite app_assoc.
Qed.

Lemma spans_end (l : list stmt) (w : world) :
  Forall (fun s => frames (run s)) l ->
  Forall (fun e => (snd (snd e) <= List.length (ax (snd (forM l run w))))%nat)
         (spans l w).
Proof.
  intros Hl. revert w. induction Hl as [|s l Hs Hl IH]; intros w.
  - constructor.
  - rewrite forM_cons. simpl. constructor.
    + simpl. rewrite (trace_artists l _ Hl), length_app. lia.
    + apply IH.
Qed.

Lemma regions_nth (l : list stmt) (w : world) (i : nat) t a b :
  nth_error (regions l w) i = Some (t, (a, b)) ->
  exists e, nth_error (spans l w) i = Some e /\
            (layer_of (fst e), placed_at (fst e)) = t /\ snd e = (a, b).
Proof.
  unfold regions. rewrite nth_error_map.
  destruct (nth_error (spans l w) i) as [e|]; [|discriminate].
  simpl. intros H. injection H as <- H. now exists e.
Qed.

Lemma regions_layers (l : list stmt) (w : world) :
  map (fun r => fst (fst r)) (regions l w) = map layer_of l.
Proof.
  unfold regions. rewrite map_map. simpl.
  rewrite <- (spans_stmts l w) at 2. now rewrite map_map.
Qed.

Lemma regions_in_order (w : world) (i j : nat) ti si tj sj :
  (i < j)%nat ->
  nth_error (regions script w) i = Some (ti, si) ->
  nth_error (regions script w) j = Some (tj, sj) ->
  (List.length (ax w) <= fst si <= snd si)%nat /\
  (snd si <= fst sj <= snd sj)%nat /\
  (snd sj <= List.length (ax (snd (mockup w))))%nat.
Proof.
  intros Hij Hi Hj. destruct si as [ai bi], sj as [aj bj].
  apply regions_nth in Hi, Hj.
  destruct Hi as (ei & Hi & _ & Ei), Hj as (ej & Hj & _ & Ej).
  pose proof (spans_bounds script w frames_script) as Hb.
  pose proof (spans_end script w frames_script) as He.
  rewrite Forall_forall in Hb, He.
  pose proof (Hb _ (nth_error_In _ _ Hi)) as Bi.
  pose proof (Hb _ (nth_error_In _ _ Hj)) as Bj.
  pose proof (He _ (nth_error_In _ _ Hj)) as Lj.
  pose proof (spans_ordered script w i j ei ej frames_script Hij Hi Hj) as Ho.
  rewrite Ei in *. rewrite Ej in *. cbn [fst snd] in *. unfold mockup. lia.
Qed.

Lemma ranks_ascend_head (a : layer) (l : list layer) :
  ranks_ascend (a :: l) = true ->
  Forall (fun z => (layer_rank a <= layer_rank z)%nat) l.
Proof.
  revert a. induction l as [|b l IH]; intros a H; [constructor|].
  simpl in H. apply andb_true_iff in H. destruct H as [Hab H].
  apply Nat.leb_le in Hab. constructor; [exact Hab|].
  eapply Forall_impl; [|apply (IH b H)]. simpl. intros z Hz. lia.
Qed.

Lemma ranks_ascend_tail (a : layer) (l : list layer) :
  ranks_ascend (a :: l) = true -> ranks_ascend l = true.
Proof.
  destruct l as [|b l]; [reflexivity|]. simpl. intros H.
  apply andb_true_iff in H. apply H.
Qed.

Lemma ranks_ascend_spec (l : list layer) i j x y :
  ranks_ascend l = true -> (i < j)%nat ->
  nth_error l i = Some x -> nth_error l j = Some y ->
  (layer_rank x <= layer_rank y)%nat.
Proof.
  revert i j. induction l as [|a l IH]; intros i j H Hij Hi Hj.
  - destruct i; discriminate.
  - destruct j as [|j]; [lia|]. simpl in Hj. destruct i as [|i]; simpl in Hi.
    + injection Hi as <-.
      pose proof (ranks_ascend_head a l H) as Hhd.
      rewrite Forall_forall in Hhd. apply Hhd. eapply nth_error_In, Hj.
    + apply (IH i j); auto; [eapply ranks_ascend_tail, H | lia].
Qed.

Lemma script_ranks_ascend : ranks_ascend (map layer_of script) = true.
Proof. vm_compute. reflexivity. Qed.

Lemma regions_layer_nth (w : world) (i : nat) l p s :
  nth_error (regions script w) i = Some (l, p, s) ->
  nth_error (map layer_of script) i = Some l.
Proof.
  intros H. rewrite <- (regions_layers script w), nth_error_map, H. reflexivity.
Qed.

Lemma regions_earlier_rank (w : world) (i j : nat) li pi si lj pj sj :
  nth_error (regions script w) i = Some (li, pi, si) ->
  nth_error (regions script w) j = Some (lj, pj, sj) ->
  (layer_rank li < layer_rank lj)%nat ->
  (i < j)%nat.
Proof.
  intros Hi Hj Hr.
  destruct (Nat.lt_trichotomy i j) as [H|[H|H]]; [exact H| |].
  - subst j. rewrite Hi in Hj. injection Hj as <- _ _. lia.
  - apply regions_layer_nth in Hi, Hj.
    pose proof (ranks_ascend_spec (map layer_of script) j i lj li
                  script_ranks_ascend H Hj Hi). lia.
Qed.

(** ** Seeded runs *)

Lemma reproduces_frames {A : Type} (m : M A) (w1 w2 : world) :
  frames m ->
  reproduces m (set_ax [] w1) (set_ax [] w2) -> reproduces m w1 w2.
Proof.
  intros F (Hn & Hf & Hs). unfold reproduces.
  rewrite !(frames_new_artists m _ F), (frames_run m w1 F), (frames_run m w2 F).
  rewrite !(frames_new_artists m _ F) in Hn. simpl in Hn.
  simpl. repeat split; auto.
Qed.

Ltac ahead H :=
  pose proof (H 0%nat) as H0; pose proof (H 1%nat) as H1;
  pose proof (H 2%nat) as H2; pose proof (H 3%nat) as H3;
  pose proof (H 4%nat) as H4; pose proof (H 5%nat) as H5;
  pose proof (H 6%nat) as H6; pose proof (H 7%nat) as H7;
  pose proof (H 8%nat) as H8; pose proof (H 9%nat) as H9;
  cbn [Nat.add] in H0, H1, H2, H3, H4, H5, H6, H7, H8, H9.

Ltac ahead_after H :=
  intros k;
  repeat rewrite <- Nat.add_succ_comm; apply H.

Lemma reproduces_draw_iso_tile x y color biome_type w1 w2 :
  same_outcomes_ahead w1 w2 ->
  reproduces (draw_iso_tile x y color biome_type) w1 w2.
Proof.
  intros H. apply reproduces_frames; [apply frames_draw_iso_tile|].
  destruct w1 as [l1 [o1 n1] p1], w2 as [l2 [o2 n2] p2].
  unfold same_outcomes_ahead in H. simpl in H. ahead H.
  unfold reproduces, new_artists, same_outcomes_ahead, draw_iso_tile, world_to_iso.
  cbv beta iota zeta.
  destruct (String.eqb biome_type "grass");
    [|destruct (String.eqb biome_type "desert")];
    run_world; cbn [skipn];
    rewrite ?H0, ?H1, ?H2, ?H3, ?H4, ?H5, ?H6, ?H7, ?H8, ?H9;
    (split; [reflexivity | split; [reflexivity | ahead_after H]]).
Qed.

Lemma reproduces_draw_tree x y w1 w2 :
  same_outcomes_ahead w1 w2 -> reproduces (draw_tree x y) w1 w2.
Proof.
  intros H. apply reproduces_frames; [apply frames_draw_tree|].
  destruct w1 as [l1 [o1 n1] p1], w2 as [l2 [o2 n2] p2].
  unfold same_outcomes_ahead in H. simpl in H.
  unfold reproduces, new_artists, same_outcomes_ahead, draw_tree, world_to_iso.
  cbv beta iota zeta. run_world. cbn [skipn].
  split; [reflexivity | split; [reflexivity | exact H]].
Qed.

Lemma reproduces_draw_resource x y resource_type w1 w2 :
  same_outcomes_ahead w1 w2 ->
  reproduces (draw_resource x y resource_type) w1 w2.
Proof.
  intros H. apply reproduces_frames; [apply frames_draw_resource|].
  destruct w1 as [l1 [o1 n1] p1], w2 as [l2 [o2 n2] p2].
  unfold same_outcomes_ahead in H. simpl in H. ahead H.
  unfold reproduces, new_artists, same_outcomes_ahead, draw_resource, world_to_iso.
  cbv beta iota zeta.
  destruct (String.eqb resource_type "berries");
    [|destruct (String.eqb resource_type "water");
      [|destruct (String.eqb resource_type "cactus")]];
    run_world; cbn [skipn];
    rewrite ?H0, ?H1, ?H2, ?H3, ?H4, ?H5, ?H6, ?H7, ?H8, ?H9;
    (split; [reflexivity | split; [reflexivity | ahead_after H]]).
Qed.

Lemma reproduces_draw_creature x y species emotion action w1 w2 :
  same_outcomes_ahead w1 w2 ->
  reproduces (draw_creature x y species emotion action) w1 w2.
Proof.
  intros H. apply reproduces_frames; [apply frames_draw_creature|].
  destruct w1 as [l1 [o1 n1] p1], w2 as [l2 [o2 n2] p2].
  unfold same_outcomes_ahead in H. simpl in H. ahead H.
  unfold reproduces, new_artists, same_outcomes_ahead, draw_creature, world_to_iso.
  cbv beta iota zeta.
  destruct (String.eqb species "herbivore");
    [|destruct (String.eqb species "carnivore")];
  (destruct (String.eqb emotion "happy");
   [|destruct (String.eqb emotion "scared");
     destruct (String.eqb emotion "sad");
     destruct (String.eqb emotion "angry")]);
  (destruct action as [action|];
   [destruct (String.eqb action "eating");
    [|destruct (String.eqb action "sleeping");
      [|destruct (String.eqb action "talking")]]|]);
  run_world; rewrite ?H0;
  match goal with
  | |- context [PrimFloat.ltb ?a ?b] => destruct (PrimFloat.ltb a b)
  end;
  run_world; cbn [skipn];
  rewrite ?H1, ?H2, ?H3, ?H4, ?H5, ?H6, ?H7, ?H8, ?H9;
  (split; [reflexivity | split; [reflexivity | ahead_after H]]).
Qed.

(** ** The order of painting *)

Lemma insert_In x y l :
  In y (insert_by_zorder x l) <-> y = x \/ In y l.
Proof.
  induction l as [|z l IH]; simpl.
  - intuition.
  - destruct (zorder (snd x) <=? zorder (snd z)); simpl; [intuition|].
    rewrite IH. intuition.
Qed.

Lemma sorted_In y l : In y (sorted_by_zorder l) <-> In y l.
Proof.
  induction l as [|x l IH]; simpl; [reflexivity|].
  rewrite insert_In, IH. intuition.
Qed.

Lemma insert_sorted x l :
  StronglySorted paints_first l ->
  Forall (fun y => (fst x < fst y)%nat) l ->
  StronglySorted paints_first (insert_by_zorder x l).
Proof.
  intros Hs Hx. induction Hs as [|z l Hs IH Hz]; simpl.
  - repeat constructor.
  - inversion Hx as [|? ? Hxz Hxl]; subst.
    destruct (Z.leb_spec (zorder (snd x)) (zorder (snd z))) as [L|L].
    + constructor; [constructor; assumption|].
      constructor.
      * unfold paints_first. lia.
      * rewrite Forall_forall in Hz, Hxl |- *. intros y Hy.
        specialize (Hz y Hy). specialize (Hxl y Hy). unfold paints_first in *. lia.
    + constructor; [apply IH, Hxl|].
      rewrite Forall_forall in Hz |- *. intros y Hy.
      apply insert_In in Hy. destruct Hy as [->|Hy]; [|now apply Hz].
      unfold paints_first. lia.
Qed.

Lemma sorted_sorted l :
  StronglySorted (fun x y => (fst x < fst y)%nat) l ->
  StronglySorted paints_first (sorted_by_zorder l).
Proof.
  intros H. induction H as [|x l Hs IH Hx]; simpl; [constructor|].
  apply insert_sorted; [exact IH|].
  rewrite Forall_forall in Hx |- *. intros y Hy. apply Hx.
  now apply sorted_In.
Qed.

Lemma indexed_sorted {A : Type} (l : list A) (k : nat) :
  StronglySorted (fun x y : nat * A => (fst x < fst y)%nat)
                 (combine (seq k (List.length l)) l).
Proof.
  revert k. induction l as [|a l IH]; intros k; simpl; [constructor|].
  constructor; [apply IH|].
  rewrite Forall_forall. intros [i b] Hi. apply in_combine_l in Hi.
  apply in_seq in Hi. simpl. lia.
Qed.

Lemma indexed_In {A : Type} (l : list A) (p : nat) (a : A) :
  nth_error l p = Some a -> In (p, a) (combine (seq 0 (List.length l)) l).
Proof.
  assert (G : forall k, nth_error l p = Some a ->
                        In ((k + p)%nat, a) (combine (seq k (List.length l)) l)).
  { revert p. induction l as [|b l IH]; intros p k H.
    - destruct p; discriminate.
    - destruct p as [|p]; simpl in *.
      + injection H as ->. left. f_equal. lia.
      + right. replace (k + S p)%nat with (S k + p)%nat by lia. now apply IH. }
  apply (G 0%nat).
Qed.

Lemma sorted_nth {A : Type} (R : A -> A -> Prop) (l : list A) i j x y :
  StronglySorted R l -> (i < j)%nat ->
  nth_error l i = Some x -> nth_error l j = Some y -> R x y.
Proof.
  intros H. revert i j. induction H as [|a l Hs IH Ha]; intros i j Hij Hi Hj.
  - destruct i; discriminate.
  - destruct j as [|j]; [lia|]. simpl in Hj. destruct i as [|i]; simpl in Hi.
    + injection Hi as <-. rewrite Forall_forall in Ha.
      apply Ha. eapply nth_error_In, Hj.
    + apply (IH i j); auto. lia.
Qed.

Lemma painted_before_lex (l : list artist) (p q : nat) (a b : artist) :
  nth_error l p = Some a -> nth_error l q = Some b ->
  paints_first (p, a) (q, b) -> painted_before l p q.
Proof.
  intros Hp Hq L.
  set (out := sorted_by_zorder (combine (seq 0 (List.length l)) l)).
  assert (S : StronglySorted paints_first out) by apply sorted_sorted, indexed_sorted.
  assert (Ip : In (p, a) out) by now apply sorted_In, indexed_In.
  assert (Iq : In (q, b) out) by now apply sorted_In, indexed_In.
  apply In_nth_error in Ip, Iq. destruct Ip as [i Hi], Iq as [j Hj].
  exists i, j. unfold painting. fold out. rewrite !nth_error_map, Hi, Hj.
  split; [|now split].
  destruct (Nat.lt_trichotomy i j) as [H|[H|H]]; [exact H| |].
  - subst j. rewrite Hi in Hj. injection Hj as -> ->.
    unfold paints_first in L. simpl in L. lia.
  - pose proof (sorted_nth paints_first out j i _ _ S H Hj Hi) as L'.
    unfold paints_first in L, L'. simpl in L, L'. lia.
Qed.


Lemma insert_perm x l : Permutation (insert_by_zorder x l) (x :: l).
Proof.
  induction l as [|y l IH]; simpl; [reflexivity|].
  destruct (zorder (snd x) <=? zorder (snd y)); [reflexivity|].
  rewrite IH. apply perm_swap.
Qed.

Lemma sorted_perm l : Permutation (sorted_by_zorder l) l.
Proof.
  induction l as [|x l IH]; simpl; [reflexivity|].
  rewrite insert_perm. now constructor.
Qed.

Lemma indexed_fst {A : Type} (l : list A) (k : nat) :
  map fst (combine (seq k (List.length l)) l) = seq k (List.length l).
Proof.
  revert k. induction l as [|a l IH]; intros k; simpl; [reflexivity|].
  now rewrite IH.
Qed.

Lemma painting_perm (l : list artist) :
  Permutation (painting l) (seq 0 (List.length l)).
Proof.
  unfold painting. rewrite sorted_perm. now rewrite indexed_fst.
Qed.

Lemma painting_NoDup (l : list artist) : NoDup (painting l).
Proof.
  eapply Permutation_NoDup; [symmetry; apply painting_perm | apply seq_NoDup].
Qed.

Lemma painted_before_asym (l : list artist) (p q : nat) :
  painted_before l p q -> ~ painted_before l q p.
Proof.
  intros (i & j & Hij & Hi & Hj) (j' & i' & Hji & Hj' & Hi').
  pose proof (painting_NoDup l) as N.
  assert (Li : (i < List.length (painting l))%nat)
    by (apply nth_error_Some; rewrite Hi; discriminate).
  assert (Lj : (j < List.length (painting l))%nat)
    by (apply nth_error_Some; rewrite Hj; discriminate).
  assert (i = i') by (apply (NoDup_nth_error (painting l)); auto; congruence).
  assert (j = j') by (apply (NoDup_nth_error (painting l)); auto; congruence).
  lia.
Qed.

Lemma painting_of_two (l : list artist) (p q : nat) :
  (p < q < List.length l)%nat ->
  (zorder_at l p <= zorder_at l q ->
   painted_before l p q /\ ~ painted_before l q p) /\
  (zorder_at l q < zorder_at l p ->
   painted_before l q p /\ ~ painted_before l p q).
Proof.
  intros Hpq. unfold zorder_at.
  assert (Hp : nth_error l p = Some (nth p l AxesImage))
    by (apply nth_error_nth'; lia).
  assert (Hq : nth_error l q = Some (nth q l AxesImage))
    by (apply nth_error_nth'; lia).
  split; intros Hz.
  - assert (B : painted_before l p q).
    { apply (painted_before_lex l p q _ _ Hp Hq). unfold paints_first. simpl. lia. }
    split; [exact B | now apply painted_before_asym].
  - assert (B : painted_before l q p).
    { apply (painted_before_lex l q p _ _ Hq Hp). unfold paints_first. simpl. lia. }
    split; [exact B | now apply painted_before_asym].
Qed.

Lemma mockup_saved_run (w : world) :
  mockup_saved w = (painting (ax (snd (mockup w))), snd (mockup w)).
Proof. unfold mockup_saved, bind, savefig. now destruct (mockup w). Qed.

Lemma zorder_at_most_text (l : list artist) (p : nat) : zorder_at l p <= 3.
Proof. unfold zorder_at. destruct (nth p l AxesImage); simpl; lia. Qed.

Lemma painting_of_regions (w : world) (i j : nat) ti si tj sj (p q : nat) :
  (i < j)%nat ->
  nth_error (regions script w) i = Some (ti, si) ->
  nth_error (regions script w) j = Some (tj, sj) ->
  (fst si <= p < snd si)%nat -> (fst sj <= q < snd sj)%nat ->
  (p < q)%nat /\
  (zorder_at (ax (snd (mockup w))) p <= zorder_at (ax (snd (mockup w))) q ->
   painted_before (ax (snd (mockup w))) p q /\
   ~ painted_before (ax (snd (mockup w))) q p) /\
  (zorder_at (ax (snd (mockup w))) q < zorder_at (ax (snd (mockup w))) p ->
   painted_before (ax (snd (mockup w))) q p /\
   ~ painted_before (ax (snd (mockup w))) p q).
Proof.
  intros Hij Hi Hj Hp Hq.
  destruct (regions_in_order w i j ti si tj sj Hij Hi Hj) as (B1 & B2 & B3).
  split; [lia|]. apply painting_of_two. lia.
Qed.

End MockupFacts.

(** ** The projection *)

(** C2: [world_to_iso] computes, in binary64 arithmetic and for all floats,
    screen x = (x - y) * 0.5 + 800 and screen y = (x + y) * 0.25 + 200: the
    scales are 0.5 and 0.25, the origin is (800, 200). It reads nothing but
    its arguments and has no error case. Called with integers, as the script
    calls it, Python takes the difference and the sum in integer arithmetic
    before it multiplies; for coordinates in [0, 2048) that gives the same
    screen point, bit for bit. The creature at (400, 400) is projected to
    (800, 400), the first tile at (100, 100) to (800, 250) and the last
    desert tile at (1148, 548) to (1100, 624). *)
Theorem world_to_iso_formula :
  (forall x y : float,
     Mockup.world_to_iso x y
     = ((x - y) * 0.5 + 800, (x + y) * 0.25 + 200)%float) /\
  (forall x y : Z,
     0 <= x < 2048 -> 0 <= y < 2048 ->
     Mockup.world_to_iso (Mockup.float_of_int x) (Mockup.float_of_int y)
     = (Mockup.float_of_int (x - y) * 0.5 + 800,
        Mockup.float_of_int (x + y) * 0.25 + 200)%float) /\
  Mockup.world_to_iso 400 400 = (800, 400)%float /\
  Mockup.world_to_iso 100 100 = (800, 250)%float /\
  Mockup.world_to_iso 1148 548 = (1100, 624)%float.
Proof.
  split; [reflexivity|]. split; [|repeat split].
  intros x y Hx Hy. unfold Mockup.world_to_iso.
  now rewrite diff_exact, sum_exact.
Qed.

(** The tree at (450, 300): difference 150, sum 750. *)
Lemma world_to_iso_formula_witness :
  Mockup.world_to_iso (Mockup.float_of_int 450) (Mockup.float_of_int 300)
  = (Mockup.float_of_int 150 * 0.5 + 800,
     Mockup.float_of_int 750 * 0.25 + 200)%float.
Proof.
  apply (proj1 (proj2 world_to_iso_formula) 450 300); lia.
Defined.




(** ** The projection of the integer grid *)

(** On the world points with integer coordinates in [0, 2048), which
    cover the scene, the screen y computed by [world_to_iso] orders the
    points exactly as the depth key [x + y] does, weakly and strictly: no
    rounding merges or swaps two keys. *)
Theorem world_to_iso_orders_grid_by_depth (x1 y1 x2 y2 : Z) :
  0 <= x1 < 2048 -> 0 <= y1 < 2048 -> 0 <= x2 < 2048 -> 0 <= y2 < 2048 ->
  (Mockup.depth_key (x1, y1) <= Mockup.depth_key (x2, y2) <->
   PrimFloat.leb (Mockup.screen_y (x1, y1)) (Mockup.screen_y (x2, y2)) = true) /\
  (Mockup.depth_key (x1, y1) < Mockup.depth_key (x2, y2) <->
   PrimFloat.ltb (Mockup.screen_y (x1, y1)) (Mockup.screen_y (x2, y2)) = true).
Proof.
  intros H1 H2 H3 H4. rewrite !screen_y_key by assumption.
  unfold Mockup.depth_key. simpl.
  destruct (key_order (x1 + y1) (x2 + y2)) as [Hle Hlt]; [lia | lia |].
  rewrite <- Hle, <- Hlt.
  split; [apply iff_sym, Z.leb_le | apply iff_sym, Z.ltb_lt].
Qed.

(** The creature at (500, 250) is projected strictly below the one at
    (400, 400); the points (300, 350) and (150, 500) share a depth key and
    the first is projected no higher than the second. *)
Lemma world_to_iso_orders_grid_by_depth_witness :
  PrimFloat.ltb (Mockup.screen_y (500, 250)) (Mockup.screen_y (400, 400)) = true /\
  PrimFloat.leb (Mockup.screen_y (300, 350)) (Mockup.screen_y (150, 500)) = true.
Proof.
  split.
  - apply (proj2 (world_to_iso_orders_grid_by_depth 500 250 400 400
             ltac:(lia) ltac:(lia) ltac:(lia) ltac:(lia))).
    unfold Mockup.depth_key. simpl. lia.
  - apply (proj1 (world_to_iso_orders_grid_by_depth 300 350 150 500
             ltac:(lia) ltac:(lia) ltac:(lia) ltac:(lia))).
    unfold Mockup.depth_key. simpl. lia.
Defined.

(** On the same grid [world_to_iso] is injective: two world points with the
    same screen point are the same point. *)
Theorem world_to_iso_injective_on_grid (x1 y1 x2 y2 : Z) :
  0 <= x1 < 2048 -> 0 <= y1 < 2048 -> 0 <= x2 < 2048 -> 0 <= y2 < 2048 ->
  Mockup.world_to_iso (Mockup.float_of_int x1) (Mockup.float_of_int y1)
    = Mockup.world_to_iso (Mockup.float_of_int x2) (Mockup.float_of_int y2) ->
  (x1, y1) = (x2, y2).
Proof.
  intros H1 H2 H3 H4 E. unfold Mockup.world_to_iso in E.
  injection E as Ex Ey.
  rewrite !diff_exact in Ex by assumption.
  rewrite !sum_exact in Ey by assumption.
  apply screen_x_of_diff_injective in Ex; [|lia|lia].
  apply screen_y_of_key_injective in Ey; [|lia|lia].
  f_equal; lia.
Qed.

Lemma world_to_iso_injective_on_grid_witness :
  (400, 400) = (400, 400).
Proof.
  apply (world_to_iso_injective_on_grid 400 400 400 400); try lia. reflexivity.
Defined.

(** ** The shape generators *)

(** Each of the four shape generators only appends to the axes: the artists
    that were on the axes before the call are still there, in front and
    unchanged (also those of a sleeping creature, whose eyes are recoloured
    after they were added), and the artists added, the value returned and
    the state of the generator after the call are the same for any two
    worlds with the same generator state, whatever is on their axes. *)
Theorem generators_only_append :
  (forall x y color biome_type,
     Mockup.only_appends (Mockup.draw_iso_tile x y color biome_type)) /\
  (forall x y, Mockup.only_appends (Mockup.draw_tree x y)) /\
  (forall x y species emotion action,
     Mockup.only_appends (Mockup.draw_creature x y species emotion action)) /\
  (forall x y resource_type,
     Mockup.only_appends (Mockup.draw_resource x y resource_type)).
Proof.
  split; [|split; [|split]]; intros; apply frames_only_appends.
  - apply frames_draw_iso_tile.
  - apply frames_draw_tree.
  - apply frames_draw_creature.
  - apply frames_draw_resource.
Qed.

(** [draw_tree] reads nothing but its arguments: from any two worlds it adds
    the same four artists (the trunk, then three foliage circles at the
    projected point), and it leaves the generator as it found it. *)
Theorem draw_tree_ignores_the_world (x y : float) (w1 w2 : Mockup.world) :
  Mockup.new_artists (Mockup.draw_tree x y) w1
    = Mockup.new_artists (Mockup.draw_tree x y) w2 /\
  List.length (Mockup.new_artists (Mockup.draw_tree x y) w1) = 4%nat /\
  Mockup.np_random (snd (Mockup.draw_tree x y w1)) = Mockup.np_random w1 /\
  Mockup.outcomes_taken (Mockup.draw_tree x y) w1 = 0%nat.
Proof.
  assert (E : forall w,
    Mockup.new_artists (Mockup.draw_tree x y) w
    = let '(ix, iy) := Mockup.world_to_iso x y in
      [ Mockup.FancyBboxPatch (ix - 8, iy)%float 16 40 "#654321";
        Mockup.Circle (ix, iy + 40)%float 40 "#2d5016";
        Mockup.Circle (ix, iy + 55)%float 35 "#2d5016";
        Mockup.Circle (ix, iy + 65)%float 25 "#2d5016" ]).
  { intros w. apply new_artists_app. now rewrite draw_tree_run. }
  split; [now rewrite !E|]. split; [rewrite E; reflexivity|].
  unfold Mockup.outcomes_taken. rewrite draw_tree_run. simpl.
  split; [reflexivity | lia].
Qed.

(** A tile drawn in a colour [#rrggbb] is one diamond, followed by three
    grass blades for 'grass' or by five sand dots for 'desert'; any other
    biome type gets the bare diamond. Every blade and every dot takes two
    outcomes of the global generator, so a call advances it by 6, 10 or 0
    outcomes. *)
Theorem draw_iso_tile_artists_and_outcomes
    (x y : float) (color biome_type : string) (w : Mockup.world) :
  Mockup.is_hex_color color = true ->
  Mockup.outcomes_taken (Mockup.draw_iso_tile x y color biome_type) w
    = (if String.eqb biome_type "grass" then 6
       else if String.eqb biome_type "desert" then 10 else 0)%nat /\
  List.length (Mockup.new_artists (Mockup.draw_iso_tile x y color biome_type) w)
    = (if String.eqb biome_type "grass" then 4
       else if String.eqb biome_type "desert" then 6 else 1)%nat.
Proof. intros _. apply draw_iso_tile_counts. Qed.

(** The first forest tile of the script, in the sample world. *)
Lemma draw_iso_tile_artists_and_outcomes_witness :
  Mockup.outcomes_taken
    (Mockup.draw_iso_tile 100 100 "#3a7d44" "grass") Mockup.sample_world
    = 6%nat /\
  List.length (Mockup.new_artists
                 (Mockup.draw_iso_tile 100 100 "#3a7d44" "grass")
                 Mockup.sample_world)
    = 4%nat.
Proof.
  exact (draw_iso_tile_artists_and_outcomes 100 100 "#3a7d44" "grass"
           Mockup.sample_world eq_refl).
Defined.

(** A berry bush is the bush and five berries, placed with ten outcomes of
    the generator; water is a puddle and a ripple; a cactus is its body and
    eight pairs of spines; none of the latter two touches the generator. *)
Theorem draw_resource_artists_and_outcomes
    (x y : float) (resource_type : string) (w : Mockup.world) :
  Mockup.outcomes_taken (Mockup.draw_resource x y resource_type) w
    = (if String.eqb resource_type "berries" then 10 else 0)%nat /\
  List.length (Mockup.new_artists (Mockup.draw_resource x y resource_type) w)
    = (if String.eqb resource_type "berries" then 6
       else if String.eqb resource_type "water" then 2
       else if String.eqb resource_type "cactus" then 17 else 0)%nat.
Proof. apply draw_resource_counts. Qed.

(** A resource type other than 'berries', 'water' and 'cactus' is dropped
    without a trace: the call returns normally and leaves the axes and the
    generator exactly as they were. *)
Theorem draw_resource_unknown_type_draws_nothing
    (x y : float) (resource_type : string) (w : Mockup.world) :
  String.eqb resource_type "berries" = false ->
  String.eqb resource_type "water" = false ->
  String.eqb resource_type "cactus" = false ->
  Mockup.draw_resource x y resource_type w = (tt, w).
Proof.
  intros H1 H2 H3. unfold Mockup.draw_resource, Mockup.world_to_iso.
  cbv beta iota zeta. now rewrite H1, H2, H3.
Qed.

Lemma draw_resource_unknown_type_draws_nothing_witness :
  Mockup.draw_resource 250 300 "gold" Mockup.sample_world
    = (tt, Mockup.sample_world).
Proof.
  apply (draw_resource_unknown_type_draws_nothing 250 300 "gold");
    reflexivity.
Defined.

(** [draw_creature] returns the projected point of the creature. It always
    takes one outcome of the generator, which decides on the spots, and six
    more to place three spots when it exceeds 0.5. It adds seven artists
    (shadow, body, head, two eyes, two pupils), those of the emotion (five
    for 'happy', two for 'sad' and for 'angry'), those of the action (one
    for 'eating', three for 'sleeping', four for 'talking') and the spots;
    an emotion or an action it does not know adds nothing. *)
Theorem draw_creature_artists_and_outcomes
    (x y : float) (species emotion : string) (action : option string)
    (w : Mockup.world) :
  fst (Mockup.draw_creature x y species emotion action w)
    = Mockup.world_to_iso x y /\
  Mockup.outcomes_taken (Mockup.draw_creature x y species emotion action) w
    = (if Mockup.has_spots w then 7 else 1)%nat /\
  List.length (Mockup.new_artists
                 (Mockup.draw_creature x y species emotion action) w)
    = (7 + Mockup.emotion_artists emotion + Mockup.action_artists action
       + if Mockup.has_spots w then 3 else 0)%nat.
Proof. apply draw_creature_counts. Qed.

(** The eyes of a creature are its fourth and fifth artist. They have the
    same face colour: white, unless the creature is sleeping; then
    [set_facecolor] has given both the face colour of the body, its second
    artist, after they were added to the axes. *)
Theorem draw_creature_sleeping_closes_eyes
    (x y : float) (species emotion : string) (action : option string)
    (w : Mockup.world) :
  exists body left_eye right_eye,
    let new := Mockup.new_artists
                 (Mockup.draw_creature x y species emotion action) w in
    nth_error new 1 = Some body /\
    nth_error new 3 = Some left_eye /\
    nth_error new 4 = Some right_eye /\
    Mockup.facecolor_of right_eye = Mockup.facecolor_of left_eye /\
    Mockup.facecolor_of left_eye
      = match action with
        | Some a => if String.eqb a "sleeping" then Mockup.facecolor_of body
                    else Some "white"
        | None => Some "white"
        end.
Proof. apply draw_creature_eyes. Qed.

(** ** Randomness *)

(** C8, where the claim fails: the generators take their randomness from the
    one generator of the process and leave it advanced. The same call of
    [draw_iso_tile], made twice in a row, puts its first grass blade at
    x = 790 the first time and at x = 804 the second time. *)
Lemma draw_iso_tile_twice_differs :
  Mockup.first_blade_x
    (Mockup.new_artists (Mockup.draw_iso_tile 100 100 "#3a7d44" "grass")
       Mockup.sample_world) = 790%float /\
  Mockup.first_blade_x
    (Mockup.new_artists (Mockup.draw_iso_tile 100 100 "#3a7d44" "grass")
       (snd (Mockup.draw_iso_tile 100 100 "#3a7d44" "grass"
               Mockup.sample_world))) = 804%float /\
  Mockup.new_artists (Mockup.draw_iso_tile 100 100 "#3a7d44" "grass")
    Mockup.sample_world
  <> Mockup.new_artists (Mockup.draw_iso_tile 100 100 "#3a7d44" "grass")
       (snd (Mockup.draw_iso_tile 100 100 "#3a7d44" "grass"
               Mockup.sample_world)).
Proof.
  split; [reflexivity|]. split; [reflexivity|].
  intros E. apply (f_equal Mockup.first_blade_x) in E.
  apply (f_equal (fun x => PrimFloat.eqb x 790)) in E.
  vm_compute in E. discriminate.
Qed.

(** C8, as amended: what a shape generator adds and returns is a function
    of its arguments and of the outcomes the global generator will produce
    next, and of nothing else. From two worlds whose generators will
    produce the same outcomes, as after the same seed, a call with the same
    arguments adds the same artists and returns the same value, whatever is
    on the axes, and leaves two generators that again will produce the same
    outcomes; so a sequence of calls is reproduced as well. *)
Theorem generators_reproduce_seeded_runs (w1 w2 : Mockup.world) :
  Mockup.same_outcomes_ahead w1 w2 ->
  (forall x y color biome_type,
     Mockup.reproduces (Mockup.draw_iso_tile x y color biome_type) w1 w2) /\
  (forall x y, Mockup.reproduces (Mockup.draw_tree x y) w1 w2) /\
  (forall x y species emotion action,
     Mockup.reproduces (Mockup.draw_creature x y species emotion action)
       w1 w2) /\
  (forall x y resource_type,
     Mockup.reproduces (Mockup.draw_resource x y resource_type) w1 w2).
Proof.
  intros H. split; [|split; [|split]]; intros.
  - now apply reproduces_draw_iso_tile.
  - now apply reproduces_draw_tree.
  - now apply reproduces_draw_creature.
  - now apply reproduces_draw_resource.
Qed.

(** The first forest tile, from the sample world and from a world with other
    axes whose generator is five outcomes further but goes on alike. *)
Lemma generators_reproduce_seeded_runs_witness :
  Mockup.reproduces (Mockup.draw_iso_tile 100 100 "#3a7d44" "grass")
    Mockup.sample_world Mockup.reseeded_world.
Proof.
  assert (H : Mockup.same_outcomes_ahead
                Mockup.sample_world Mockup.reseeded_world).
  { intros k. cbn. f_equal. lia. }
  exact (proj1 (generators_reproduce_seeded_runs
                  Mockup.sample_world Mockup.reseeded_world H)
               100%float 100%float "#3a7d44" "grass").
Defined.

(** ** The order of drawing *)

(** The artists on the axes after the script has run are the artists its
    statements add, statement after statement in the order of the script:
    nothing is sorted, and no statement changes or removes what an earlier
    one has added. *)
Theorem mockup_artists_in_statement_order (w : Mockup.world) :
  Mockup.ax (snd (Mockup.mockup w))
    = Mockup.ax w
      ++ List.concat (map snd (Mockup.trace Mockup.script w)).
Proof. apply trace_artists, frames_script. Qed.

(** The indices of the artists of two statements: those of the earlier
    statement all come before those of the later one, and both lie between
    the artists the axes started with and the end of the axes. *)
Theorem script_regions_in_order
    (w : Mockup.world) (i j : nat) ti si tj sj :
  (i < j)%nat ->
  nth_error (Mockup.regions Mockup.script w) i = Some (ti, si) ->
  nth_error (Mockup.regions Mockup.script w) j = Some (tj, sj) ->
  (List.length (Mockup.ax w) <= fst si <= snd si)%nat /\
  (snd si <= fst sj <= snd sj)%nat /\
  (snd sj <= List.length (Mockup.ax (snd (Mockup.mockup w))))%nat.
Proof. apply regions_in_order. Qed.

(** In the sample world the creature at (400, 400) fills the indices 734 to
    749 and the one at (500, 250), added next although it is farther back,
    the indices 750 to 758. *)
Lemma script_regions_in_order_witness :
  (List.length (Mockup.ax Mockup.sample_world) <= 734 <= 750)%nat /\
  (750 <= 750 <= 759)%nat /\
  (759 <= List.length (Mockup.ax (snd (Mockup.mockup Mockup.sample_world))))%nat.
Proof.
  apply (script_regions_in_order Mockup.sample_world 150 151
           (Mockup.Creatures, Some (400, 400)) (734, 750)%nat
           (Mockup.Creatures, Some (500, 250)) (750, 759)%nat);
    [lia | vm_compute; reflexivity | vm_compute; reflexivity].
Defined.

(** The parts of the script hand their artists to the axes one after the
    other: every artist of a part that stands higher in the script
    (background, terrain, trees, creatures, resources, weather, UI elements,
    particle effects, day/night indicator, panel, title, mini-map) has a
    smaller index in the list of artists of the axes than every artist of a
    part that stands lower. This is the order of insertion; in which order
    matplotlib paints the list is another matter. *)
Theorem later_parts_are_added_later
    (w : Mockup.world) (i j : nat) li pi si lj pj sj :
  nth_error (Mockup.regions Mockup.script w) i = Some (li, pi, si) ->
  nth_error (Mockup.regions Mockup.script w) j = Some (lj, pj, sj) ->
  (Mockup.layer_rank li < Mockup.layer_rank lj)%nat ->
  (i < j)%nat /\ (snd si <= fst sj)%nat.
Proof.
  intros Hi Hj Hr.
  pose proof (regions_earlier_rank w i j li pi si lj pj sj Hi Hj Hr) as Hij.
  split; [exact Hij|].
  apply (regions_in_order w i j (li, pi) si (lj, pj) sj Hij Hi Hj).
Qed.

(** The first health bar patch (statement 179) is added before the first
    heart, a particle effect (statement 183). *)
Lemma later_parts_are_added_later_witness :
  (179 < 183)%nat /\ (848 <= 851)%nat.
Proof.
  apply (later_parts_are_added_later Mockup.sample_world 179 183
           Mockup.UIElements (Some (400, 400)) (847, 848)%nat
           Mockup.ParticleEffects (Some (400, 400)) (851, 852)%nat);
    [vm_compute; reflexivity | vm_compute; reflexivity | simpl; lia].
Defined.

(** Every artist of a UI overlay (health bar and need icon, panel, title,
    mini-map) is added to the axes after every artist of a tile, a tree, a
    creature or a resource, wherever these are placed: it has the larger
    index in the list of artists of the axes. *)
Theorem ui_overlays_added_after_placed_entities
    (w : Mockup.world) (i j : nat) li pi si lj pj sj :
  nth_error (Mockup.regions Mockup.script w) i = Some (li, pi, si) ->
  nth_error (Mockup.regions Mockup.script w) j = Some (lj, pj, sj) ->
  Mockup.is_placed_entity li = true ->
  Mockup.is_ui_overlay lj = true ->
  (i < j)%nat /\ (snd si <= fst sj)%nat.
Proof.
  intros Hi Hj Hp Hu.
  assert (Hr : (Mockup.layer_rank li < Mockup.layer_rank lj)%nat)
    by (destruct li; try discriminate; destruct lj; try discriminate; simpl; lia).
  pose proof (regions_earlier_rank w i j li pi si lj pj sj Hi Hj Hr) as Hij.
  split; [exact Hij|].
  apply (regions_in_order w i j (li, pi) si (lj, pj) sj Hij Hi Hj).
Qed.

(** The creature at (400, 400) (statement 150) and the health bar above it
    (statement 179). *)
Lemma ui_overlays_added_after_placed_entities_witness :
  (150 < 179)%nat /\ (750 <= 847)%nat.
Proof.
  apply (ui_overlays_added_after_placed_entities Mockup.sample_world 150 179
           Mockup.Creatures (Some (400, 400)) (734, 750)%nat
           Mockup.UIElements (Some (400, 400)) (847, 848)%nat);
    [vm_compute; reflexivity | vm_compute; reflexivity
     | reflexivity | reflexivity].
Defined.

(** ** The order of painting *)

(** C3, where the claim fails: nothing sorts by depth. The creature at
    (400, 400), depth key 800, stands before the one at (500, 250), depth
    key 750, in the list of creatures; [draw_creature] is called for it
    first (calls 149 and 150 of the shape generators), its artists are
    added first (indices 734 to 749, then 750 to 758), and its body
    (artist 735) is painted before the body of the other (artist 751), at
    the places 495 and 509 of the painting. *)
Lemma creatures_not_in_depth_order :
  nth_error (Mockup.draw_sequence Mockup.script) 149
    = Some (Mockup.Creatures, (400, 400)) /\
  nth_error (Mockup.draw_sequence Mockup.script) 150
    = Some (Mockup.Creatures, (500, 250)) /\
  Mockup.depth_key (500, 250) < Mockup.depth_key (400, 400) /\
  nth_error (Mockup.regions Mockup.script Mockup.sample_world) 150
    = Some (Mockup.Creatures, Some (400, 400), (734, 750)%nat) /\
  nth_error (Mockup.regions Mockup.script Mockup.sample_world) 151
    = Some (Mockup.Creatures, Some (500, 250), (750, 759)%nat) /\
  nth_error (Mockup.painting
               (Mockup.ax (snd (Mockup.mockup Mockup.sample_world)))) 495
    = Some 735%nat /\
  nth_error (Mockup.painting
               (Mockup.ax (snd (Mockup.mockup Mockup.sample_world)))) 509
    = Some 751%nat.
Proof. vm_compute. repeat split. Qed.

(** C3, as amended: the script never sorts. The shape generators are called
    in the order of the manifest (the nested tile loops, the list of trees,
    the list of creatures, the three resources), and the artists of an
    entity that comes earlier there are added to the axes before those of a
    later one, whatever the depth keys of the two. When the figure is saved
    the artists are painted by zorder (image, patches, lines, texts) and by
    index within a zorder: an artist of the earlier entity is painted
    before an artist of the later entity unless its zorder is the higher
    one, in which case it is painted after it. *)
Theorem placed_entities_painted_by_zorder_then_manifest
    (w : Mockup.world) (i j : nat) li pi si lj pj sj (p q : nat) :
  (i < j)%nat ->
  nth_error (Mockup.regions Mockup.script w) i = Some (li, Some pi, si) ->
  nth_error (Mockup.regions Mockup.script w) j = Some (lj, Some pj, sj) ->
  Mockup.is_placed_entity li = true ->
  Mockup.is_placed_entity lj = true ->
  (fst si <= p < snd si)%nat -> (fst sj <= q < snd sj)%nat ->
  (p < q)%nat /\
  (Mockup.zorder_at (Mockup.ax (snd (Mockup.mockup w))) p
   <= Mockup.zorder_at (Mockup.ax (snd (Mockup.mockup w))) q ->
   Mockup.painted_before (Mockup.ax (snd (Mockup.mockup w))) p q /\
   ~ Mockup.painted_before (Mockup.ax (snd (Mockup.mockup w))) q p) /\
  (Mockup.zorder_at (Mockup.ax (snd (Mockup.mockup w))) q
   < Mockup.zorder_at (Mockup.ax (snd (Mockup.mockup w))) p ->
   Mockup.painted_before (Mockup.ax (snd (Mockup.mockup w))) q p /\
   ~ Mockup.painted_before (Mockup.ax (snd (Mockup.mockup w))) p q).
Proof.
  intros Hij Hi Hj _ _ Hp Hq.
  apply (painting_of_regions w i j (li, Some pi) si (lj, Some pj) sj p q);
    assumption.
Qed.

(** The bodies of the creatures at (400, 400) and at (500, 250), both
    patches: the first is painted before the second. *)
Lemma placed_entities_painted_by_zorder_then_manifest_witness :
  Mockup.painted_before
    (Mockup.ax (snd (Mockup.mockup Mockup.sample_world))) 735 751.
Proof.
  apply (proj1 (proj2 (placed_entities_painted_by_zorder_then_manifest
           Mockup.sample_world 150 151
           Mockup.Creatures (400, 400) (734, 750)%nat
           Mockup.Creatures (500, 250) (750, 759)%nat 735 751
           ltac:(lia)
           ltac:(vm_compute; reflexivity) ltac:(vm_compute; reflexivity)
           eq_refl eq_refl ltac:(simpl; lia) ltac:(simpl; lia)))).
  vm_compute. discriminate.
Defined.

(** C7, where the claim fails: the red patch of the health bar above the
    creature at (400, 400), a UI overlay and the artist 847 of the axes, is
    painted at place 564, before the first grass blade of the first tile
    (artist 2, a line, place 573), which then lies over it where they
    overlap; and the hearts, placed at the same creature, are added to the
    axes after the health bar and the need icon (artists 851 to 853). *)
Lemma health_bar_painted_before_grass :
  nth_error (Mockup.regions Mockup.script Mockup.sample_world) 1
    = Some (Mockup.Terrain, Some (100, 100), (1, 5)%nat) /\
  nth_error (Mockup.regions Mockup.script Mockup.sample_world) 179
    = Some (Mockup.UIElements, Some (400, 400), (847, 848)%nat) /\
  nth_error (Mockup.regions Mockup.script Mockup.sample_world) 183
    = Some (Mockup.ParticleEffects, Some (400, 400), (851, 852)%nat) /\
  nth_error (Mockup.painting
               (Mockup.ax (snd (Mockup.mockup Mockup.sample_world)))) 564
    = Some 847%nat /\
  nth_error (Mockup.painting
               (Mockup.ax (snd (Mockup.mockup Mockup.sample_world)))) 573
    = Some 2%nat.
Proof. vm_compute. repeat split. Qed.

(** C7, as amended: the artists of the UI overlays (health bar and need
    icon, panel, title, mini-map) are added to the axes after all artists
    of the tiles, trees, creatures and resources. They are not painted in a
    pass of their own: when the figure is saved all artists are painted by
    zorder and by index within a zorder. So an overlay artist is painted
    after an artist of a placed entity exactly when its zorder is not the
    lower one: the texts of the overlays after everything of the placed
    entities, the patches of the overlays after their patches but before
    their lines and texts. *)
Theorem ui_overlays_painted_by_zorder
    (w : Mockup.world) (i j : nat) li pi si lj pj sj (p q : nat) :
  nth_error (Mockup.regions Mockup.script w) i = Some (li, pi, si) ->
  nth_error (Mockup.regions Mockup.script w) j = Some (lj, pj, sj) ->
  Mockup.is_placed_entity li = true ->
  Mockup.is_ui_overlay lj = true ->
  (fst si <= p < snd si)%nat -> (fst sj <= q < snd sj)%nat ->
  (p < q)%nat /\
  (Mockup.zorder_at (Mockup.ax (snd (Mockup.mockup w))) p
   <= Mockup.zorder_at (Mockup.ax (snd (Mockup.mockup w))) q ->
   Mockup.painted_before (Mockup.ax (snd (Mockup.mockup w))) p q /\
   ~ Mockup.painted_before (Mockup.ax (snd (Mockup.mockup w))) q p) /\
  (Mockup.zorder_at (Mockup.ax (snd (Mockup.mockup w))) q
   < Mockup.zorder_at (Mockup.ax (snd (Mockup.mockup w))) p ->
   Mockup.painted_before (Mockup.ax (snd (Mockup.mockup w))) q p /\
   ~ Mockup.painted_before (Mockup.ax (snd (Mockup.mockup w))) p q) /\
  (Mockup.zorder_at (Mockup.ax (snd (Mockup.mockup w))) q = 3 ->
   Mockup.painted_before (Mockup.ax (snd (Mockup.mockup w))) p q).
Proof.
  intros Hi Hj Hp Hu Hpi Hqi.
  assert (Hr : (Mockup.layer_rank li < Mockup.layer_rank lj)%nat)
    by (destruct li; try discriminate; destruct lj; try discriminate; simpl; lia).
  pose proof (regions_earlier_rank w i j li pi si lj pj sj Hi Hj Hr) as Hij.
  destruct (painting_of_regions w i j (li, pi) si (lj, pj) sj p q
              Hij Hi Hj Hpi Hqi) as (Hpq & Hle & Hlt).
  split; [exact Hpq|]. split; [exact Hle|]. split; [exact Hlt|].
  intros H3. apply Hle. rewrite H3. apply zorder_at_most_text.
Qed.

(** The body of the creature at (400, 400) (artist 735) and the red patch
    of its health bar (artist 847), both patches. *)
Lemma ui_overlays_painted_by_zorder_witness :
  Mockup.painted_before
    (Mockup.ax (snd (Mockup.mockup Mockup.sample_world))) 735 847.
Proof.
  apply (proj1 (proj2 (ui_overlays_painted_by_zorder
           Mockup.sample_world 150 179
           Mockup.Creatures (Some (400, 400)) (734, 750)%nat
           Mockup.UIElements (Some (400, 400)) (847, 848)%nat 735 847
           ltac:(vm_compute; reflexivity) ltac:(vm_compute; reflexivity)
           eq_refl eq_refl ltac:(simpl; lia) ltac:(simpl; lia)))).
  vm_compute. discriminate.
Defined.
